(** * Verification of the TCD scorecard parser ([src/parser.py])

    A shallow embedding of [extract_json_object], [clean_score] and
    [parse_html_file_content], and the properties the specification
    states about them.

    Modelling choices.
    - A Python [str] is a sequence of code points; the development keeps
      the code points below 256, so a character is an [ascii].  On that
      range [\s] and [str.strip] see the code points 9-13, 28-32, 133 and
      160, and [\d] sees ['0'..'9'] only.  Document text is a
      [list ascii]; decoded JSON strings and messages are [string].
    - A Python [float] is an IEEE 754 binary64 value, embedded as the
      [spec_float] of the standard library with [prec = 53] and
      [emax = 1024]: NaN, both infinities and both zeroes are there.
    - A raised exception is the [Raise] branch of [result].
    - [json.loads] belongs to the Python standard library, not to the
      repository: the extraction functions take the decoder as a
      parameter, and [Json.loads] models the decoder of CPython 3.11,
      diagnostics included.  Where [json.loads] raises something else
      than [JSONDecodeError] ([RecursionError] on deep nesting,
      [ValueError] on an integer of more than 4300 digits) the model does
      not decide, and the statements about the decoder leave these texts
      out. *)

From Stdlib Require Import List ZArith Ascii String Bool Arith Lia.
From Stdlib Require Import DecimalString.
From Stdlib Require Import Permutation Sorted SpecFloat.
Import ListNotations.

(** ** Exceptions and the error monad *)

Inductive exn : Type :=
| ValueError (msg : string)
| AttributeError (msg : string)
| OverflowError (msg : string).

Inductive result (A : Type) : Type :=
| Ok (a : A)
| Raise (e : exn).

Arguments Ok {A} a.
Arguments Raise {A} e.

Definition bind {A B : Type} (r : result A) (k : A -> result B) : result B :=
  match r with
  | Ok a => k a
  | Raise e => Raise e
  end.

Notation "x <- c ;; k" := (bind c (fun x => k))
  (at level 61, c at next level, right associativity).

Definition returns {A : Type} (r : result A) : Prop := exists a, r = Ok a.

Definition raises {A : Type} (r : result A) : Prop := exists e, r = Raise e.

(** ** Python floats *)

Module PyFloat.

Definition float : Type := spec_float.

Definition prec : Z := 53.
Definition emax : Z := 1024.

Definition zero : float := S754_zero false.
Definition nan : float := S754_nan.
Definition inf : float := S754_infinity false.
Definition neg_inf : float := S754_infinity true.

Definition add (x y : float) : float := SFadd prec emax x y.
Definition ltb (x y : float) : bool := SFltb x y.
Definition leb (x y : float) : bool := SFleb x y.
Definition eqb (x y : float) : bool := SFeqb x y.

Definition is_nan (x : float) : bool :=
  match x with S754_nan => true | _ => false end.

(** [m * 2^e], rounded to nearest, ties to even. *)
Definition round (m e : Z) : float := binary_normalize prec emax m e false.

(** [float(n)] for a Python [int]: [None] stands for the
    [OverflowError] that CPython raises when the rounded value does not
    fit a double. *)
Definition of_int (n : Z) : option float :=
  match round n 0 with
  | S754_infinity _ => None
  | f => Some f
  end.

(** The double nearest to [n / d], for [0 <= n] and [0 < d].  The
    quotient is taken with at least 64 significant bits and the lowest
    bit records a non-zero remainder, so the final rounding sees on
    which side of a tie the exact value lies. *)
Definition of_ratio (n d : Z) : float :=
  if (n =? 0)%Z then zero
  else
    let sh := Z.max 0 (Z.log2 d - Z.log2 n + 64) in
    let num := (n * 2 ^ sh)%Z in
    let q := (num / d)%Z in
    let sticky := if (num mod d =? 0)%Z then 0%Z else 1%Z in
    round (2 * q + sticky) (- sh - 1).

(** The value [m * 2^e] of a finite float written with its integer
    significand, for stating expected results. *)
Definition lit (m : positive) (e : Z) : float := S754_finite false m e.

End PyFloat.

Abbreviation float := PyFloat.float.

(** ** Characters and strings *)

Definition code (c : ascii) : nat := nat_of_ascii c.

(** [Py_UNICODE_ISSPACE] on the code points below 256. *)
Definition is_space (c : ascii) : bool :=
  let n := code c in
  ((9 <=? n) && (n <=? 13)) || ((28 <=? n) && (n <=? 32))
  || (n =? 133) || (n =? 160).

(** [\d] on the code points below 256. *)
Definition is_digit (c : ascii) : bool :=
  let n := code c in (48 <=? n) && (n <=? 57).

Definition is_dot (c : ascii) : bool := (code c =? 46).

Definition digit_value (c : ascii) : Z := Z.of_nat (code c - 48).

Fixpoint drop_while (p : ascii -> bool) (s : list ascii) : list ascii :=
  match s with
  | [] => []
  | c :: s' => if p c then drop_while p s' else s
  end.

Fixpoint take_while (p : ascii -> bool) (s : list ascii) : list ascii :=
  match s with
  | [] => []
  | c :: s' => if p c then c :: take_while p s' else []
  end.

(** [str.strip()] *)
Definition strip (s : list ascii) : list ascii :=
  rev (drop_while is_space (rev (drop_while is_space s))).

Definition chars (s : string) : list ascii := list_ascii_of_string s.
Definition text (s : list ascii) : string := string_of_list_ascii s.

(** ** Decoded JSON values

    What [json.loads] hands back: [None], [bool], [int], [float], [str],
    [list] and [dict].  A [dict] keeps its items in insertion order. *)

#[local] Unset Elimination Schemes.
Inductive json : Type :=
| JNull
| JBool (b : bool)
| JInt (n : Z)
| JFloat (f : float)
| JStr (s : string)
| JList (l : list json)
| JDict (items : list (string * json)).
#[local] Set Elimination Schemes.

Definition type_name (j : json) : string :=
  match j with
  | JNull => "NoneType"
  | JBool _ => "bool"
  | JInt _ => "int"
  | JFloat _ => "float"
  | JStr _ => "str"
  | JList _ => "list"
  | JDict _ => "dict"
  end.

Definition no_attribute (j : json) (attr : string) : exn :=
  AttributeError ("'" ++ type_name j ++ "' object has no attribute '" ++ attr ++ "'").

Fixpoint lookup (k : string) (items : list (string * json)) : option json :=
  match items with
  | [] => None
  | (k', v) :: rest => if String.eqb k k' then Some v else lookup k rest
  end.

(** [obj.get(key, default)]: only a [dict] has the method. *)
Definition get (obj : json) (key : string) (default : json) : result json :=
  match obj with
  | JDict items =>
      match lookup key items with
      | Some v => Ok v
      | None => Ok default
      end
  | _ => Raise (no_attribute obj "get")
  end.

(** [obj.items()] *)
Definition items (obj : json) : result (list (string * json)) :=
  match obj with
  | JDict its => Ok its
  | _ => Raise (no_attribute obj "items")
  end.

(** ** [clean_score] *)

(** The digits of a numeric run read as one integer, the points skipped. *)
Fixpoint digits_value (acc : Z) (s : list ascii) : Z :=
  match s with
  | [] => acc
  | c :: s' =>
      if is_digit c then digits_value (10 * acc + digit_value c) s'
      else digits_value acc s'
  end.

Definition count_dots (s : list ascii) : nat := List.length (filter is_dot s).
Definition count_digits (s : list ascii) : nat := List.length (filter is_digit s).

(** Number of digits that follow the first point. *)
Definition fraction_digits (s : list ascii) : nat :=
  count_digits (drop_while is_digit s).

Definition could_not_convert (s : list ascii) : exn :=
  ValueError ("could not convert string to float: '" ++ text s ++ "'").

(** [float(s)] for [s] made of digits and points, the only strings group 1
    of [[\d.]+] can hold: [s] is a float literal when it has at most one
    point and at least one digit, and is then rounded correctly. *)
Definition float_of_run (s : list ascii) : result float :=
  if (count_dots s <=? 1) && (1 <=? count_digits s) then
    Ok (PyFloat.of_ratio (digits_value 0 s) (10 ^ Z.of_nat (fraction_digits s)))
  else Raise (could_not_convert s).

(** [float(n)] for an [int]. *)
Definition float_of_int (n : Z) : result float :=
  match PyFloat.of_int n with
  | Some f => Ok f
  | None => Raise (OverflowError "int too large to convert to float")
  end.

(** Group 1 of [re.match(r'^([\d.]+)', s)]; empty when there is no match. *)
Definition numeric_match (s : list ascii) : list ascii :=
  take_while (fun c => is_digit c || is_dot c) s.

Definition absence_markers : list string := ["-"; EmptyString; "NA"; "N/A"]%string.

Definition is_absence_marker (s : list ascii) : bool :=
  existsb (String.eqb (text s)) absence_markers.

Definition clean_score (value : json) : result float :=
  match value with
  | JNull => Ok PyFloat.zero
  | JBool b => float_of_int (if b then 1 else 0)
  | JInt n => float_of_int n
  | JFloat f => Ok f
  | JStr s =>
      let stripped := strip (chars s) in
      if is_absence_marker stripped then Ok PyFloat.zero
      else
        match numeric_match stripped with
        | [] => Ok PyFloat.zero
        | group => float_of_run group
        end
  | JList _ | JDict _ => Ok PyFloat.zero
  end.

(** ** [extract_json_object] *)

Fixpoint strip_prefix (lit s : list ascii) : option (list ascii) :=
  match lit, s with
  | [], _ => Some s
  | a :: lit', b :: s' => if Ascii.eqb a b then strip_prefix lit' s' else None
  | _ :: _, [] => None
  end.

Definition lbrace : ascii := "{"%char.
Definition rbrace : ascii := "}"%char.
Definition equals : ascii := "="%char.
Definition const : list ascii := chars "const".

(** What remains of [s] after [\s*=\s*] when a brace follows. *)
Definition match_assignment (s : list ascii) : option (list ascii) :=
  match drop_while is_space s with
  | c :: s' =>
      if Ascii.eqb c equals then
        match drop_while is_space s' with
        | b :: rest => if Ascii.eqb b lbrace then Some (b :: rest) else None
        | [] => None
        end
      else None
  | [] => None
  end.

(** One attempt of [const\s+NAME\s*=\s*(\{)] at the head of [s]: the
    offset of group 1 from the head.  [var_name] stands for itself in the
    pattern, which is so for a name free of regex operators; every
    quantifier is followed by a character that is not whitespace, so the
    greedy choice is the only one that can succeed. *)
Definition match_here (var_name s : list ascii) : option nat :=
  match strip_prefix const s with
  | Some (c :: s1) =>
      if is_space c then
        match strip_prefix var_name (drop_while is_space s1) with
        | Some s2 =>
            match match_assignment s2 with
            | Some s3 => Some (List.length s - List.length s3)
            | None => None
            end
        | None => None
        end
      else None
  | _ => None
  end.

(** [re.search(pattern, content)], then [match.start(1)]: the attempts go
    from left to right, [pos] being the index of the head of [s]. *)
Fixpoint search (var_name : list ascii) (pos : nat) (s : list ascii) : option nat :=
  match match_here var_name s with
  | Some off => Some (pos + off)
  | None =>
      match s with
      | [] => None
      | _ :: s' => search var_name (S pos) s'
      end
  end.

(** The brace-counting loop over [content[start_pos:]]: [Some end_pos]
    when the loop leaves through [break], [None] when it runs to the end
    of the text. *)
Fixpoint scan (brace_count : Z) (i : nat) (s : list ascii) : option nat :=
  match s with
  | [] => None
  | char :: s' =>
      if Ascii.eqb char lbrace then scan (brace_count + 1) (S i) s'
      else if Ascii.eqb char rbrace then
        let brace_count := (brace_count - 1)%Z in
        if (brace_count =? 0)%Z then Some (i + 1)
        else scan brace_count (S i) s'
      else scan brace_count (S i) s'
  end.

Definition find_end (content : list ascii) (start_pos : nat) : nat :=
  match scan 0 start_pos (skipn start_pos content) with
  | Some end_pos => end_pos
  | None => start_pos
  end.

(** [content[start:stop]] for [start <= stop]. *)
Definition slice (content : list ascii) (start stop : nat) : list ascii :=
  firstn (stop - start) (skipn start content).

Definition NotFoundError (var_name : list ascii) : exn :=
  ValueError ("Could not find variable '" ++ text var_name ++ "' in content").

Definition DecodeError (var_name : list ascii) (diagnostic : string) : exn :=
  ValueError ("Failed to parse JSON for '" ++ text var_name ++ "': " ++ diagnostic).

(** The substring handed to the decoder once the assignment is found. *)
Definition json_str (content : list ascii) (start_pos : nat) : list ascii :=
  slice content start_pos (find_end content start_pos).

Section Extraction.

(** [json.loads]: the decoded value, or the text of the
    [JSONDecodeError]. *)
Variable json_loads : list ascii -> json + string.

Definition extract_json_object (content var_name : list ascii) : result json :=
  match search var_name 0 content with
  | None => Raise (NotFoundError var_name)
  | Some start_pos =>
      match json_loads (json_str content start_pos) with
      | inl value => Ok value
      | inr e => Raise (DecodeError var_name e)
      end
  end.

End Extraction.

(** ** Merging and ranking: the body of [parse_html_file_content] *)

(** A record of the result.  [Rank] is [None] until the ranking loop sets
    the key. *)
Record record : Type := mkRecord {
  Name : json;
  RollNo : json;
  OverallPseudocode : float;
  OverallCoding : float;
  OverallDailyTest : float;
  Total : float;
  Rank : option nat
}.

Definition build_record (manual_overall : json) (roll_no : string) (core_data : json)
  : result record :=
  overall_data <- get manual_overall roll_no (JDict []) ;;
  name <- get core_data "Name" (JStr "Unknown") ;;
  regd <- get core_data "regdNo" (JStr roll_no) ;;
  v1 <- get overall_data "OverallPseudocode" (JInt 0) ;;
  pseudocode <- clean_score v1 ;;
  v2 <- get overall_data "OverallCoding" (JInt 0) ;;
  coding <- clean_score v2 ;;
  v3 <- get overall_data "OverallDaily" (JInt 0) ;;
  daily <- clean_score v3 ;;
  Ok {| Name := name;
        RollNo := regd;
        OverallPseudocode := pseudocode;
        OverallCoding := coding;
        OverallDailyTest := daily;
        Total := PyFloat.add (PyFloat.add pseudocode coding) daily;
        Rank := None |}.

(** The loop over [student_core.items()]: the first exception ends it. *)
Fixpoint build_records (manual_overall : json) (its : list (string * json))
  : result (list record) :=
  match its with
  | [] => Ok []
  | (roll_no, core_data) :: rest =>
      r <- build_record manual_overall roll_no core_data ;;
      rs <- build_records manual_overall rest ;;
      Ok (r :: rs)
  end.

(** [records.sort(key=lambda x: x['Total'], reverse=True)].  The sort of
    Python is stable, also under [reverse=True], and compares keys with
    [<] only.  Where [<] orders the keys, that is when no key is NaN, the
    result of a stable sort is determined ([sort_desc_determined] below)
    and the insertion sort computes it: an element goes before the first
    element it is not smaller than, so ties keep their order.  With a NaN
    key the result of [list.sort] depends on its algorithm; what is
    stated for such lists holds for every order of the records. *)
Fixpoint insert_desc (x : record) (l : list record) : list record :=
  match l with
  | [] => [x]
  | y :: l' =>
      if PyFloat.ltb (Total x) (Total y) then y :: insert_desc x l'
      else x :: l
  end.

Definition sort_desc (l : list record) : list record :=
  fold_right insert_desc [] l.

Definition set_rank (r : record) (current_rank : nat) : record :=
  {| Name := Name r;
     RollNo := RollNo r;
     OverallPseudocode := OverallPseudocode r;
     OverallCoding := OverallCoding r;
     OverallDailyTest := OverallDailyTest r;
     Total := Total r;
     Rank := Some current_rank |}.

(** The ranking loop: [todo] is what [enumerate(records)] still has to
    yield, [i] the index of its head. *)
Fixpoint rank_loop (records : list record) (i current_rank : nat) (todo : list record)
  : list record :=
  match todo with
  | [] => []
  | r :: todo' =>
      let current_rank :=
        if (0 <? i) && PyFloat.ltb (Total r) (Total (nth (i - 1) records r))
        then i + 1 else current_rank in
      set_rank r current_rank :: rank_loop records (S i) current_rank todo'
  end.

Definition assign_ranks (records : list record) : list record :=
  rank_loop records 0 1 records.

Definition merge (student_core manual_overall : json) : result (list record) :=
  its <- items student_core ;;
  records <- build_records manual_overall its ;;
  Ok (assign_ranks (sort_desc records)).

Definition parse_html_file_content (json_loads : list ascii -> json + string)
    (content : list ascii) : result (list record) :=
  student_core <- extract_json_object json_loads content (chars "studentCore") ;;
  manual_overall <- extract_json_object json_loads content (chars "manualOverall") ;;
  merge student_core manual_overall.

Open Scope string_scope.

(** ** The order of floats

    [ord] sends a float that is not NaN to a triple whose lexicographic
    order is the order [SFcompare] computes; the two zeroes share a
    triple. *)

Definition ord (f : float) : Z * Z * Z :=
  match f with
  | S754_zero _ => (0, 0, 0)%Z
  | S754_infinity false => (2, 0, 0)%Z
  | S754_infinity true => (-2, 0, 0)%Z
  | S754_nan => (3, 0, 0)%Z
  | S754_finite false m e => (1, e, Zpos m)%Z
  | S754_finite true m e => (-1, - e, Zneg m)%Z
  end.

Definition lex_lt (a b : Z * Z * Z) : Prop :=
  let '(a1, a2, a3) := a in
  let '(b1, b2, b3) := b in
  (a1 < b1 \/ (a1 = b1 /\ (a2 < b2 \/ (a2 = b2 /\ a3 < b3))))%Z.

Definition not_nan (f : float) : Prop := PyFloat.is_nan f = false.

(** [a >= b] *)
Definition geb (a b : float) : bool := PyFloat.leb b a.

Definition ge_float (a b : float) : Prop := geb a b = true.

(** ** The statements of the specification *)

(** The run the specification describes for a string score: leading
    digits, then at most one decimal point and the digits after it. *)
Definition spec_leading_run (s : list ascii) : list ascii :=
  let whole := take_while is_digit s in
  match drop_while is_digit s with
  | c :: rest =>
      if is_dot c then whole ++ c :: take_while is_digit rest else whole
  | [] => whole
  end.

(** The normalizer as section 4.2 of the specification words it; it has
    no failing branch. *)
Definition spec_normalize (value : json) : float :=
  match value with
  | JNull => PyFloat.zero
  | JBool b => PyFloat.round (if b then 1 else 0) 0
  | JInt n => PyFloat.round n 0
  | JFloat f => f
  | JStr s =>
      let stripped := strip (chars s) in
      if is_absence_marker stripped then PyFloat.zero
      else
        match float_of_run (spec_leading_run stripped) with
        | Ok f => f
        | Raise _ => PyFloat.zero
        end
  | JList _ | JDict _ => PyFloat.zero
  end.

Definition all_space (w : list ascii) : Prop := forallb is_space w = true.

(** A match of [const\s+NAME\s*=\s*(\{)] that starts at index [p] of
    [content] and has group 1 at index [brace]. *)
Definition matches_at (content var_name : list ascii) (p brace : nat) : Prop :=
  exists pre ws1 ws2 ws3 rest,
    content = (pre ++ const ++ ws1 ++ var_name ++ ws2 ++ equals :: ws3 ++ lbrace :: rest)%list
    /\ List.length pre = p
    /\ ws1 <> []
    /\ all_space ws1 /\ all_space ws2 /\ all_space ws3
    /\ brace = p + 5 + List.length ws1 + List.length var_name
               + List.length ws2 + 1 + List.length ws3.

(** The occurrence the specification words: the name, [=] and an opening
    brace with any whitespace between them, whether or not a declaration
    keyword stands before the name. *)
Definition spec_occurrence (content var_name : list ascii) (p : nat) : Prop :=
  exists pre ws2 ws3 rest,
    content = (pre ++ var_name ++ ws2 ++ equals :: ws3 ++ lbrace :: rest)%list
    /\ List.length pre = p
    /\ all_space ws2 /\ all_space ws3.

(** A name that stands for itself in the pattern: letters, digits and
    the underscore. *)
Definition is_word (c : ascii) : bool :=
  let n := code c in
  (is_digit c || ((65 <=? n) && (n <=? 90)) || ((97 <=? n) && (n <=? 122))
   || (n =? 95))%nat.

Definition plain_name (var_name : list ascii) : Prop := forallb is_word var_name = true.

Definition totals (recs : list record) : list float := map Total recs.

(** [Total[i] >= Total[i+1]] for all adjacent pairs. *)
Definition descending (ts : list float) : Prop :=
  forall i, S i < List.length ts ->
    geb (nth i ts PyFloat.zero) (nth (S i) ts PyFloat.zero) = true.

(** The number of totals strictly greater than [t]. *)
Definition count_greater (t : float) (ts : list float) : nat :=
  List.length (filter (fun u => PyFloat.ltb t u) ts).

(** The rule of adjacent ranks. *)
Definition adjacent_ranks (recs : list record) : Prop :=
  (forall r, nth_error recs 0 = Some r -> Rank r = Some 1)
  /\ (forall i r r',
        nth_error recs i = Some r -> nth_error recs (S i) = Some r' ->
        Rank r' = if PyFloat.ltb (Total r') (Total r) then Some (i + 2) else Rank r).

(** The rule of counted ranks. *)
Definition counted_ranks (recs : list record) : Prop :=
  forall r, In r recs -> Rank r = Some (1 + count_greater (Total r) (totals recs)).

Definition clear_rank (r : record) : record :=
  {| Name := Name r;
     RollNo := RollNo r;
     OverallPseudocode := OverallPseudocode r;
     OverallCoding := OverallCoding r;
     OverallDailyTest := OverallDailyTest r;
     Total := Total r;
     Rank := None |}.

(** The records whose total compares equal to [t]. *)
Definition with_total (t : float) (recs : list record) : list record :=
  filter (fun r => PyFloat.eqb (Total r) t) recs.

(** [sorted] keeps the order that [built] gives to records of equal
    total. *)
Definition stable (built sorted : list record) : Prop :=
  forall t, with_total t (map clear_rank sorted) = with_total t built.

Definition score_keys : list string :=
  ["OverallPseudocode"; "OverallCoding"; "OverallDaily"].

(** A score set on which every normalization returns. *)
Definition score_set_ok (overall_data : json) : Prop :=
  exists fields,
    overall_data = JDict fields
    /\ forall key v, In key score_keys -> lookup key fields = Some v ->
         returns (clean_score v).

(** Mappings on which the merge loop meets no exception. *)
Definition well_formed (ids : list (string * json)) (manual_overall : json) : Prop :=
  exists scores,
    manual_overall = JDict scores
    /\ forall k core_data, In (k, core_data) ids ->
         (exists fields, core_data = JDict fields)
         /\ forall overall_data, lookup k scores = Some overall_data ->
              score_set_ok overall_data.

Definition name_of (fields : list (string * json)) : json :=
  match lookup "Name" fields with
  | Some v => v
  | None => JStr "Unknown"
  end.

Definition roll_no_of (roll_no : string) (fields : list (string * json)) : json :=
  match lookup "regdNo" fields with
  | Some v => v
  | None => JStr roll_no
  end.

(** [r] is not below [r'] in the order of the sort. *)
Definition ge_total (r r' : record) : Prop := geb (Total r) (Total r') = true.

Definition numbers (recs : list record) : Prop :=
  forall r, In r recs -> not_nan (Total r).

(** The depth of braces at the end of [s]: opening braces minus closing
    braces, whether or not they stand inside a JSON string. *)
Fixpoint depth (s : list ascii) : Z :=
  match s with
  | [] => 0
  | c :: s' =>
      ((if Ascii.eqb c lbrace then 1
        else if Ascii.eqb c rbrace then -1 else 0) + depth s')%Z
  end.

(** ** [json.loads]

    The decoder is not code of the repository: it is the [json] module of
    the Python standard library, modelled here after CPython 3.11
    ([Modules/_json.c] and [Lib/json/decoder.py]) with its default
    settings: [strict] strings, and the three literals [NaN], [Infinity]
    and [-Infinity] accepted although they are no JSON.  An outcome is a
    value, a [JSONDecodeError] with its message and position, or
    [Beyond] where the model does not decide: a [\u] escape above 255
    (the strings here stop at code point 255), an integer of more than
    4300 digits ([ValueError] in Python) and nesting deeper than
    [max_depth] ([RecursionError] at some depth that the interpreter
    sets). *)

Module Json.

Inductive outcome (A : Type) : Type :=
| Done (a : A)
| Stop (idx : nat)
| Fail (msg : string) (pos : nat)
| Beyond.

Arguments Done {A} a.
Arguments Stop {A} idx.
Arguments Fail {A} msg pos.
Arguments Beyond {A}.

(** What is left of the text, and the index of its first character. *)
Definition cursor : Type := (list ascii * nat)%type.

Definition then_ {A B : Type} (o : outcome A) (k : A -> outcome B) : outcome B :=
  match o with
  | Done a => k a
  | Stop idx => Stop idx
  | Fail msg pos => Fail msg pos
  | Beyond => Beyond
  end.

Definition dquote : ascii := ascii_of_nat 34.
Definition backslash : ascii := ascii_of_nat 92.

(** [IS_WHITESPACE]: space, tab, line feed, carriage return. *)
Definition is_ws (c : ascii) : bool :=
  let n := code c in ((n =? 32) || (n =? 9) || (n =? 10) || (n =? 13))%nat.

Fixpoint skip_ws (s : list ascii) (idx : nat) : cursor :=
  match s with
  | c :: s' => if is_ws c then skip_ws s' (S idx) else (s, idx)
  | [] => ([], idx)
  end.

Definition hex_value (c : ascii) : option nat :=
  let n := code c in
  if ((48 <=? n) && (n <=? 57))%nat then Some (n - 48)
  else if ((97 <=? n) && (n <=? 102))%nat then Some (n - 87)
  else if ((65 <=? n) && (n <=? 70))%nat then Some (n - 55)
  else None.

Definition hex4 (h1 h2 h3 h4 : ascii) : option nat :=
  match hex_value h1, hex_value h2, hex_value h3, hex_value h4 with
  | Some a, Some b, Some c, Some d => Some (((a * 16 + b) * 16 + c) * 16 + d)
  | _, _, _, _ => None
  end.

(** The character a backslash escape other than [\u] stands for. *)
Definition unescape (e : ascii) : option ascii :=
  let n := code e in
  if (n =? 34)%nat then Some e
  else if (n =? 92)%nat then Some e
  else if (n =? 47)%nat then Some e
  else if (n =? 98)%nat then Some (ascii_of_nat 8)
  else if (n =? 102)%nat then Some (ascii_of_nat 12)
  else if (n =? 110)%nat then Some (ascii_of_nat 10)
  else if (n =? 114)%nat then Some (ascii_of_nat 13)
  else if (n =? 116)%nat then Some (ascii_of_nat 9)
  else None.

Definition push (c : ascii) (o : outcome (string * cursor)) : outcome (string * cursor) :=
  then_ o (fun r => Done (String c (fst r), snd r)).

(** [scanstring_unicode] in strict mode: [s] starts behind the opening
    quote, which stands at index [begin]; [idx] is the index of the head
    of [s]. *)
Fixpoint scanstring (begin : nat) (s : list ascii) (idx : nat)
  : outcome (string * cursor) :=
  match s with
  | [] => Fail "Unterminated string starting at" begin
  | c :: s1 =>
      if Ascii.eqb c dquote then Done (EmptyString, (s1, S idx))
      else if Ascii.eqb c backslash then
        match s1 with
        | [] => Fail "Unterminated string starting at" begin
        | e :: s2 =>
            if Ascii.eqb e "u"%char then
              match s2 with
              | h1 :: h2 :: h3 :: h4 :: (_ :: _) as s3 =>
                  match hex4 h1 h2 h3 h4 with
                  | Some n =>
                      if (n <? 256)%nat
                      then push (ascii_of_nat n) (scanstring begin s3 (idx + 6))
                      else Beyond
                  | None => Fail "Invalid \uXXXX escape" (S idx)
                  end
              | _ => Fail "Invalid \uXXXX escape" (S idx)
              end
            else
              match unescape e with
              | Some ch => push ch (scanstring begin s2 (idx + 2))
              | None => Fail "Invalid \escape" idx
              end
        end
      else if (code c <=? 31)%nat then Fail "Invalid control character at" idx
      else push c (scanstring begin s1 (S idx))
  end.

Definition max_int_digits : nat := 4300.

(** [float(numstr)] for the digits of a JSON number: the value
    [digits * 10 ^ exp10], with its sign; [digits] is written with
    [length] digits.  A value of 10^310 or more is beyond the doubles and
    a value below 10^-330 is nearer to zero than to any other double, so
    that the powers of ten computed stay small. *)
Definition float_of_decimal (negative : bool) (digits : Z) (length : nat) (exp10 : Z)
  : float :=
  if (digits =? 0)%Z then S754_zero negative
  else if (310 <=? exp10)%Z then S754_infinity negative
  else if (exp10 + Z.of_nat length <=? -330)%Z then S754_zero negative
  else
    let magnitude :=
      if (0 <=? exp10)%Z then PyFloat.of_ratio (digits * 10 ^ exp10) 1
      else PyFloat.of_ratio digits (10 ^ (- exp10)) in
    if negative then SFopp magnitude else magnitude.

Definition is_nonzero_digit (c : ascii) : bool :=
  let n := code c in ((49 <=? n) && (n <=? 57))%nat.

(** The digits of the integer part: one or more digits without a
    leading zero, or the digit zero alone. *)
Definition integer_part (s : list ascii) : option (list ascii * list ascii) :=
  match s with
  | c :: s' =>
      if is_nonzero_digit c
      then Some (c :: take_while is_digit s', drop_while is_digit s')
      else if Ascii.eqb c "0"%char then Some ([c], s')
      else None
  | [] => None
  end.

(** A point followed by one or more digits. *)
Definition fraction_part (s : list ascii) : list ascii * list ascii :=
  match s with
  | c :: d :: s' =>
      if Ascii.eqb c "."%char && is_digit d
      then (d :: take_while is_digit s', drop_while is_digit s')
      else ([], s)
  | _ => ([], s)
  end.

(** [e] or [E], a sign if any, and one or more digits; nothing is taken
    when the digits are missing. *)
Definition exponent_part (s : list ascii) : option (bool * list ascii * nat) * list ascii :=
  match s with
  | c :: s' =>
      if Ascii.eqb c "e"%char || Ascii.eqb c "E"%char then
        let '(negative, signed, s'') :=
          match s' with
          | sg :: t =>
              if Ascii.eqb sg "-"%char then (true, 1, t)
              else if Ascii.eqb sg "+"%char then (false, 1, t)
              else (false, 0, s')
          | [] => (false, 0, s')
          end in
        match take_while is_digit s'' with
        | [] => (None, s)
        | ds => (Some (negative, ds, 1 + signed + List.length ds),
                 drop_while is_digit s'')
        end
      else (None, s)
  | [] => (None, s)
  end.

(** [_match_number_unicode] *)
Definition match_number (s : list ascii) (idx : nat) : outcome (json * cursor) :=
  let '(negative, body) :=
    match s with
    | c :: s' => if Ascii.eqb c "-"%char then (true, s') else (false, s)
    | [] => (false, s)
    end in
  match integer_part body with
  | None => Stop idx
  | Some (whole, after_whole) =>
      let '(fraction, after_fraction) := fraction_part after_whole in
      let '(exponent, rest) := exponent_part after_fraction in
      let sign_length := if negative then 1 else 0 in
      let fraction_length :=
        match fraction with [] => 0 | _ => 1 + List.length fraction end in
      match fraction, exponent with
      | [], None =>
          if (List.length whole <=? max_int_digits)%nat then
            let n := digits_value 0 whole in
            Done (JInt (if negative then - n else n),
                  (rest, idx + sign_length + List.length whole))
          else Beyond
      | _, _ =>
          let '(exp10, exponent_length) :=
            match exponent with
            | Some (exp_negative, ds, len) =>
                (if exp_negative then (- digits_value 0 ds)%Z else digits_value 0 ds,
                 len)
            | None => (0%Z, 0)
            end in
          Done (JFloat (float_of_decimal negative
                          (digits_value 0 (whole ++ fraction))
                          (List.length (whole ++ fraction))
                          (exp10 - Z.of_nat (List.length fraction))),
                (rest,
                 idx + sign_length + List.length whole + fraction_length
                 + exponent_length))
      end
  end.

(** [d[key] = value]: a key already there keeps its place. *)
Fixpoint set_item (d : list (string * json)) (key : string) (value : json)
  : list (string * json) :=
  match d with
  | [] => [(key, value)]
  | (k, v) :: rest =>
      if String.eqb k key then (k, value) :: rest
      else (k, v) :: set_item rest key value
  end.

Definition max_depth : nat := 100.

(** A literal at the head of the text. *)
Definition literal (word : string) (value : json) (s : list ascii) (idx : nat)
  : option (json * cursor) :=
  match strip_prefix (chars word) s with
  | Some rest => Some (value, (rest, idx + String.length word))
  | None => None
  end.

(** [scan_once_unicode], with the loops of [_parse_object_unicode]
    ([members]) and [_parse_array_unicode] ([elements]).  [constants]
    tells whether [NaN], [Infinity] and [-Infinity] are accepted, as
    [json.loads] does; [depth] is the nesting still allowed; [fuel]
    bounds the calls and is given more than a text can use. *)
Fixpoint scan_once (constants : bool) (fuel depth : nat) (s : list ascii) (idx : nat)
  {struct fuel} : outcome (json * cursor) :=
  match fuel with
  | 0 => Beyond
  | S fuel' =>
      match s with
      | [] => Stop idx
      | c :: s1 =>
          if Ascii.eqb c dquote then
            then_ (scanstring idx s1 (S idx))
              (fun r => Done (JStr (fst r), snd r))
          else if Ascii.eqb c lbrace then
            match depth with
            | 0 => Beyond
            | S depth' =>
                let '(s2, i2) := skip_ws s1 (S idx) in
                match s2 with
                | c2 :: s3 =>
                    if Ascii.eqb c2 rbrace then Done (JDict [], (s3, S i2))
                    else members constants fuel' depth' [] s2 i2
                | [] => members constants fuel' depth' [] s2 i2
                end
            end
          else if Ascii.eqb c "["%char then
            match depth with
            | 0 => Beyond
            | S depth' =>
                let '(s2, i2) := skip_ws s1 (S idx) in
                match s2 with
                | c2 :: s3 =>
                    if Ascii.eqb c2 "]"%char then Done (JList [], (s3, S i2))
                    else elements constants fuel' depth' [] s2 i2
                | [] => elements constants fuel' depth' [] s2 i2
                end
            end
          else
            match literal "null" JNull s idx with
            | Some r => Done r
            | None =>
            match literal "true" (JBool true) s idx with
            | Some r => Done r
            | None =>
            match literal "false" (JBool false) s idx with
            | Some r => Done r
            | None =>
            match (if constants then literal "NaN" (JFloat PyFloat.nan) s idx
                   else None) with
            | Some r => Done r
            | None =>
            match (if constants then literal "Infinity" (JFloat PyFloat.inf) s idx
                   else None) with
            | Some r => Done r
            | None =>
            match (if constants
                   then literal "-Infinity" (JFloat PyFloat.neg_inf) s idx
                   else None) with
            | Some r => Done r
            | None => match_number s idx
            end end end end end end
      end
  end

with members (constants : bool) (fuel depth : nat) (d : list (string * json))
       (s : list ascii) (idx : nat) {struct fuel} : outcome (json * cursor) :=
  match fuel with
  | 0 => Beyond
  | S fuel' =>
      match s with
      | c :: s1 =>
          if Ascii.eqb c dquote then
            then_ (scanstring idx s1 (S idx)) (fun key_end =>
              let '(key, (s2, i2)) := key_end in
              let '(s3, i3) := skip_ws s2 i2 in
              match s3 with
              | colon :: s4 =>
                  if Ascii.eqb colon ":"%char then
                    let '(s5, i5) := skip_ws s4 (S i3) in
                    then_ (scan_once constants fuel' depth s5 i5) (fun value_end =>
                      let '(value, (s6, i6)) := value_end in
                      let d' := set_item d key value in
                      let '(s7, i7) := skip_ws s6 i6 in
                      match s7 with
                      | c7 :: s8 =>
                          if Ascii.eqb c7 rbrace then Done (JDict d', (s8, S i7))
                          else if Ascii.eqb c7 ","%char then
                            let '(s9, i9) := skip_ws s8 (S i7) in
                            members constants fuel' depth d' s9 i9
                          else Fail "Expecting ',' delimiter" i7
                      | [] => Fail "Expecting ',' delimiter" i7
                      end)
                  else Fail "Expecting ':' delimiter" i3
              | [] => Fail "Expecting ':' delimiter" i3
              end)
          else Fail "Expecting property name enclosed in double quotes" idx
      | [] => Fail "Expecting property name enclosed in double quotes" idx
      end
  end

with elements (constants : bool) (fuel depth : nat) (l : list json)
       (s : list ascii) (idx : nat) {struct fuel} : outcome (json * cursor) :=
  match fuel with
  | 0 => Beyond
  | S fuel' =>
      then_ (scan_once constants fuel' depth s idx) (fun value_end =>
        let '(value, (s2, i2)) := value_end in
        let l' := (l ++ [value])%list in
        let '(s3, i3) := skip_ws s2 i2 in
        match s3 with
        | c3 :: s4 =>
            if Ascii.eqb c3 "]"%char then Done (JList l', (s4, S i3))
            else if Ascii.eqb c3 ","%char then
              let '(s5, i5) := skip_ws s4 (S i3) in
              elements constants fuel' depth l' s5 i5
            else Fail "Expecting ',' delimiter" i3
        | [] => Fail "Expecting ',' delimiter" i3
        end)
  end.

Definition decimal (n : nat) : string := NilEmpty.string_of_uint (Nat.to_uint n).

Definition newline : ascii := ascii_of_nat 10.

(** [doc.count('\n', 0, pos) + 1] *)
Definition lineno (doc : list ascii) (pos : nat) : nat :=
  1 + List.length (filter (Ascii.eqb newline) (firstn pos doc)).

(** [pos - doc.rfind('\n', 0, pos)], [rfind] being -1 without a line
    feed: one more than the characters behind the last line feed. *)
Definition colno (doc : list ascii) (pos : nat) : nat :=
  1 + List.length (take_while (fun c => negb (Ascii.eqb newline c)) (rev (firstn pos doc))).

(** [str(JSONDecodeError(msg, doc, pos))] *)
Definition diagnostic (msg : string) (doc : list ascii) (pos : nat) : string :=
  (msg ++ ": line " ++ decimal (lineno doc pos) ++ " column "
       ++ decimal (colno doc pos) ++ " (char " ++ decimal pos ++ ")")%string.

(** [JSONDecoder.decode]: whitespace, one value, whitespace, the end of
    the text.  [None] where the model does not decide. *)
Definition decode (constants : bool) (doc : list ascii) : option (json + string) :=
  let '(s1, i1) := skip_ws doc 0 in
  match scan_once constants (2 * List.length doc + 2) max_depth s1 i1 with
  | Done (value, (s2, i2)) =>
      match skip_ws s2 i2 with
      | ([], _) => Some (inl value)
      | (_ :: _, i3) => Some (inr (diagnostic "Extra data" doc i3))
      end
  | Stop idx => Some (inr (diagnostic "Expecting value" doc idx))
  | Fail msg pos => Some (inr (diagnostic msg doc pos))
  | Beyond => None
  end.

(** [json.loads] *)
Definition loads (doc : list ascii) : option (json + string) := decode true doc.

End Json.

(** ** Inputs and outputs for the examples *)

(** The diagnostic of [json.loads] on a text that starts with no JSON
    value, the empty string among them. *)
Definition expecting_value : string := "Expecting value: line 1 column 1 (char 0)".

(** A JSON string literal: [s] between double quotes. *)
Definition quoted (s : string) : string :=
  String (ascii_of_nat 34) s ++ String (ascii_of_nat 34) EmptyString.

Definition core_text : string :=
  "{" ++ quoted "R1" ++ ":{" ++ quoted "Name" ++ ":" ++ quoted "A" ++ "}}".

Definition overall_text : string :=
  "{" ++ quoted "R1" ++ ":{" ++ quoted "OverallPseudocode" ++ ":50,"
      ++ quoted "OverallCoding" ++ ":" ++ quoted "-" ++ ","
      ++ quoted "OverallDaily" ++ ":" ++ quoted "30(Late)" ++ "}}".

Definition core_value : json :=
  JDict [("R1", JDict [("Name", JStr "A")])].

Definition overall_value : json :=
  JDict [("R1", JDict [("OverallPseudocode", JInt 50);
                       ("OverallCoding", JStr "-");
                       ("OverallDaily", JStr "30(Late)")])].

(** What the decoder of the examples answers where the model of
    [json.loads] does not decide; no example goes there, and no
    statement rests on it. *)
Definition outside_the_model : string := "(outside the model)".

(** The decoder of the examples: [json.loads] as modelled. *)
Definition sample_loads (s : list ascii) : json + string :=
  match Json.loads s with
  | Some r => r
  | None => inr outside_the_model
  end.

Definition sample_document : list ascii :=
  chars ("const studentCore = " ++ core_text ++ "; const manualOverall = "
         ++ overall_text).

(** The record the specification expects for [sample_document]. *)
Definition sample_record : record :=
  {| Name := JStr "A";
     RollNo := JStr "R1";
     OverallPseudocode := PyFloat.lit (50 * 2 ^ 47) (-47);
     OverallCoding := PyFloat.zero;
     OverallDailyTest := PyFloat.lit (30 * 2 ^ 48) (-48);
     Total := PyFloat.lit (80 * 2 ^ 46) (-46);
     Rank := Some 1 |}.

(** Two identities, the second without a score set in [overall_value]. *)
Definition two_students : list (string * json) :=
  [("R1", JDict [("Name", JStr "A")]); ("R2", JDict [("regdNo", JStr "22")])].

Definition absent_record : record :=
  {| Name := JStr "Unknown";
     RollNo := JStr "22";
     OverallPseudocode := PyFloat.zero;
     OverallCoding := PyFloat.zero;
     OverallDailyTest := PyFloat.zero;
     Total := PyFloat.zero;
     Rank := Some 2 |}.

(** Two identities, the first with a NaN score: [json.loads] reads the
    literal [NaN] as the float NaN. *)
Definition nan_students : list (string * json) :=
  [("a", JDict []); ("b", JDict [])].

Definition nan_scores : json :=
  JDict [("a", JDict [("OverallPseudocode", JFloat PyFloat.nan)]);
         ("b", JDict [("OverallPseudocode", JInt 1)])].

(** Three identities with totals 5, NaN and 3. *)
Definition nan_between_students : list (string * json) :=
  [("a", JDict []); ("b", JDict []); ("c", JDict [])].

Definition nan_between_scores : json :=
  JDict [("a", JDict [("OverallCoding", JInt 5)]);
         ("b", JDict [("OverallCoding", JFloat PyFloat.nan)]);
         ("c", JDict [("OverallCoding", JInt 3)])].

(** Three identities with totals 80, 90 and 90. *)
Definition tie_students : list (string * json) :=
  [("x", JDict []); ("y", JDict []); ("z", JDict [])].

Definition tie_scores : json :=
  JDict [("x", JDict [("OverallDaily", JInt 80)]);
         ("y", JDict [("OverallCoding", JStr "90")]);
         ("z", JDict [("OverallPseudocode", JInt 45); ("OverallDaily", JStr "45.0")])].

Definition nan_output : list record :=
  [ {| Name := JStr "Unknown"; RollNo := JStr "a";
       OverallPseudocode := PyFloat.nan; OverallCoding := PyFloat.zero;
       OverallDailyTest := PyFloat.zero; Total := PyFloat.nan; Rank := Some 1 |};
    {| Name := JStr "Unknown"; RollNo := JStr "b";
       OverallPseudocode := PyFloat.lit (2 ^ 52) (-52); OverallCoding := PyFloat.zero;
       OverallDailyTest := PyFloat.zero; Total := PyFloat.lit (2 ^ 52) (-52);
       Rank := Some 1 |} ].

Definition unranked (roll_no : string) (coding : float) : record :=
  {| Name := JStr "Unknown"; RollNo := JStr roll_no;
     OverallPseudocode := PyFloat.zero; OverallCoding := coding;
     OverallDailyTest := PyFloat.zero; Total := coding; Rank := None |}.

(** What the merge loop builds from [nan_between_students]. *)
Definition nan_between_built : list record :=
  [ unranked "a" (PyFloat.lit (5 * 2 ^ 50) (-50));
    unranked "b" PyFloat.nan;
    unranked "c" (PyFloat.lit (3 * 2 ^ 51) (-51)) ].

Definition nan_between_output : list record :=
  [ set_rank (unranked "a" (PyFloat.lit (5 * 2 ^ 50) (-50))) 1;
    set_rank (unranked "b" PyFloat.nan) 1;
    set_rank (unranked "c" (PyFloat.lit (3 * 2 ^ 51) (-51))) 1 ].

Definition ninety : float := PyFloat.lit (90 * 2 ^ 46) (-46).
Definition eighty : float := PyFloat.lit (80 * 2 ^ 46) (-46).

(** ** Statements about the code beyond the specification *)

(** [f] is a zero, or is not NaN and has the sign [s] ([true] for
    negative). *)
Definition has_sign (s : bool) (f : float) : Prop :=
  match f with
  | S754_zero _ => True
  | S754_infinity s' => s' = s
  | S754_finite s' _ _ => s' = s
  | S754_nan => False
  end.

(** [f] is a number and is not below zero. *)
Definition nonneg (f : float) : Prop := has_sign false f.

(** A raw score that is not a negative number and not NaN: [None], a
    [bool], a [str], a [list], a [dict], or an [int] or [float] that is
    not below zero. *)
Definition nonneg_score (value : json) : Prop :=
  match value with
  | JInt n => (0 <= n)%Z
  | JFloat f => nonneg f
  | _ => True
  end.

(** Every score field that the merge reads for an identity of [ids] is a
    [nonneg_score]. *)
Definition scores_nonneg (ids : list (string * json)) (manual_overall : json) : Prop :=
  forall roll_no core_data scores fields key v,
    In (roll_no, core_data) ids ->
    manual_overall = JDict scores ->
    lookup roll_no scores = Some (JDict fields) ->
    In key score_keys ->
    lookup key fields = Some v ->
    nonneg_score v.

(** A substitution of characters that keeps the two braces apart from
    all other characters. *)
Definition keeps_braces (f : ascii -> ascii) : Prop :=
  forall c,
    Ascii.eqb (f c) lbrace = Ascii.eqb c lbrace
    /\ Ascii.eqb (f c) rbrace = Ascii.eqb c rbrace.

(** The two score mappings give the same score set to every identity. *)
Definition agree_on (ids : list (string * json)) (scores scores' : list (string * json))
  : Prop :=
  forall roll_no core_data,
    In (roll_no, core_data) ids -> lookup roll_no scores = lookup roll_no scores'.

(** The rank of a record known to have one. *)
Definition rank_of (r : record) : nat :=
  match Rank r with
  | Some k => k
  | None => 0
  end.

(** Text that may follow a number in a score string: empty, or starting
    with a character that is neither a digit nor a point and not ending
    with whitespace. *)
Definition annotation (t : list ascii) : Prop :=
  match t with
  | [] => True
  | c :: _ =>
      is_digit c = false /\ is_dot c = false /\ is_space (last t c) = false
  end.

(** A non-empty run of digits and points. *)
Definition numeric_run (run : list ascii) : Prop :=
  run <> [] /\ forallb (fun c => is_digit c || is_dot c) run = true.

(** The double quote turned into a letter, every other character kept. *)
Definition unquote (c : ascii) : ascii :=
  if Ascii.eqb c (ascii_of_nat 34) then "q"%char else c.

(** A declaration whose object holds a closing brace inside a string. *)
Definition brace_in_string : list ascii :=
  chars ("const a = {" ++ quoted "k" ++ ":" ++ quoted "}" ++ "} ;").

(** ** The decoder and the extraction *)

(** [json_loads] is [json.loads] wherever the model decides. *)
Definition agrees (json_loads : list ascii -> json + string) : Prop :=
  forall doc r, Json.loads doc = Some r -> json_loads doc = r.

(** Valid JSON: what the decoder accepts once the literals [NaN],
    [Infinity] and [-Infinity], which JSON does not have, are refused. *)
Definition valid_json (doc : list ascii) : Prop :=
  exists value, Json.decode false doc = Some (inl value).

(** A text in which neither [NaN] nor [Infinity] occurs, and so none of
    the three literals. *)
Fixpoint constant_free (doc : list ascii) : bool :=
  match doc with
  | [] => true
  | _ :: rest =>
      match strip_prefix (chars "NaN") doc, strip_prefix (chars "Infinity") doc with
      | None, None => constant_free rest
      | _, _ => false
      end
  end.

(** An outcome of the scanner whose remaining text has none of the
    literals either. *)
Definition free_result (o : Json.outcome (json * Json.cursor)) : Prop :=
  forall value rest idx,
    o = Json.Done (value, (rest, idx)) -> constant_free rest = true.

(** A declaration whose object holds the literal [NaN]. *)
Definition nan_document : list ascii :=
  chars ("const studentCore = {" ++ quoted "a" ++ ": NaN}").

(** A score mapping with a score of two points for R1 and no entry for
    R2. *)
Definition malformed_score_sets : list (string * json) :=
  [("R1", JDict [("OverallCoding", JStr "1.2.3")])].

(** A document with the identities R1 and R2 and the score mapping
    [malformed_score_sets]. *)
Definition malformed_document : list ascii :=
  chars ("const studentCore = {" ++ quoted "R1" ++ ": {" ++ quoted "Name" ++ ": "
         ++ quoted "A" ++ "}, " ++ quoted "R2" ++ ": {" ++ quoted "regdNo" ++ ": "
         ++ quoted "22" ++ "}}; const manualOverall = {" ++ quoted "R1" ++ ": {"
         ++ quoted "OverallCoding" ++ ": " ++ quoted "1.2.3" ++ "}}").

(** * Properties *)

Open Scope list_scope.

(** ** The error monad *)

Lemma bind_ok {A B : Type} (r : result A) (k : A -> result B) (b : B) :
  bind r k = Ok b -> exists a, r = Ok a /\ k a = Ok b.
Proof.
  destruct r as [a | e]; simpl; intros H.
  - exists a. split; [reflexivity | exact H].
  - discriminate H.
Qed.

Lemma bind_raise {A B : Type} (r : result A) (k : A -> result B) (e : exn) :
  r = Raise e -> bind r k = Raise e.
Proof. intros ->. reflexivity. Qed.

Ltac bind_inv H :=
  let a := fresh "a" in
  let Ha := fresh "Ha" in
  apply bind_ok in H; destruct H as [a [Ha H]].

(** ** [clean_score] *)

(** C10: a boolean passes the numeric test and becomes [float(b)], 1.0
    for [True] and 0.0 for [False]; it does not reach the fallback. *)
Theorem clean_score_bool :
  (forall b : bool, clean_score (JBool b) = float_of_int (if b then 1 else 0))
  /\ clean_score (JBool true) = Ok (PyFloat.lit (2 ^ 52) (-52))
  /\ clean_score (JBool false) = Ok PyFloat.zero.
Proof.
  split; [intros b; reflexivity | split; vm_compute; reflexivity].
Qed.

(** The examples of the specification. *)
Lemma clean_score_examples :
  clean_score (JStr "97(Reattempt)") = Ok (PyFloat.lit (97 * 2 ^ 46) (-46))
  /\ clean_score (JStr "-") = Ok PyFloat.zero
  /\ clean_score (JStr EmptyString) = Ok PyFloat.zero
  /\ clean_score JNull = Ok PyFloat.zero
  /\ clean_score (JFloat (PyFloat.lit (171 * 2 ^ 45) (-46)))
     = Ok (PyFloat.lit (171 * 2 ^ 45) (-46))
  /\ clean_score (JStr "85.5") = Ok (PyFloat.lit (171 * 2 ^ 45) (-46)).
Proof. repeat split; vm_compute; reflexivity. Qed.

(** A number that is already a float comes back unchanged. *)
Lemma clean_score_float (f : float) : clean_score (JFloat f) = Ok f.
Proof. reflexivity. Qed.

Lemma digit_not_dot (c : ascii) : is_digit c = true -> is_dot c = false.
Proof.
  unfold is_digit, is_dot. intros H.
  apply andb_true_iff in H. destruct H as [H _].
  apply Nat.leb_le in H. apply Nat.eqb_neq. lia.
Qed.

Lemma numeric_match_split (s : list ascii) :
  numeric_match s
  = (take_while is_digit s ++ numeric_match (drop_while is_digit s))%list.
Proof.
  unfold numeric_match.
  induction s as [| c s IH]; cbn; [reflexivity |].
  destruct (is_digit c) eqn:Hd; cbn.
  - rewrite IH. reflexivity.
  - rewrite Hd. reflexivity.
Qed.

Lemma count_dots_app (s t : list ascii) :
  count_dots (s ++ t) = count_dots s + count_dots t.
Proof.
  unfold count_dots. rewrite filter_app, length_app. reflexivity.
Qed.

Lemma numeric_match_no_dot (s : list ascii) :
  count_dots (numeric_match s) = 0 -> numeric_match s = take_while is_digit s.
Proof.
  unfold numeric_match, count_dots.
  induction s as [| c s IH]; cbn; [reflexivity |].
  destruct (is_digit c) eqn:Hd; cbn.
  - rewrite (digit_not_dot c Hd). intros H. rewrite (IH H). reflexivity.
  - destruct (is_dot c) eqn:Hp; cbn; [| reflexivity].
    rewrite Hp. cbn. discriminate.
Qed.

(** With at most one point in it, the run the pattern takes is the run
    the specification describes. *)
Lemma numeric_match_single_point (s : list ascii) :
  count_dots (numeric_match s) <= 1 -> spec_leading_run s = numeric_match s.
Proof.
  intros H. unfold spec_leading_run.
  rewrite (numeric_match_split s) in H |- *.
  rewrite count_dots_app in H.
  destruct (drop_while is_digit s) as [| c rest] eqn:Hdrop.
  - unfold numeric_match. simpl. rewrite app_nil_r. reflexivity.
  - assert (Hc : is_digit c = false).
    { clear H. revert Hdrop. induction s as [| a s IH]; simpl; [discriminate |].
      destruct (is_digit a) eqn:Ha; [exact IH |].
      intros E. injection E as -> _. exact Ha. }
    unfold numeric_match in *. simpl in *. rewrite Hc in *. simpl in *.
    destruct (is_dot c) eqn:Hp.
    + f_equal. f_equal. symmetry. apply numeric_match_no_dot.
      unfold numeric_match.
      unfold count_dots in H |- *. simpl in H. rewrite Hp in H. simpl in H. lia.
    + rewrite app_nil_r. reflexivity.
Qed.

Lemma float_of_run_ok (s : list ascii) (f : float) :
  float_of_run s = Ok f -> count_dots s <= 1 /\ 1 <= count_digits s.
Proof.
  unfold float_of_run.
  destruct ((count_dots s <=? 1)%nat && (1 <=? count_digits s)%nat) eqn:H;
    [| discriminate].
  intros _. apply andb_true_iff in H. destruct H as [H1 H2].
  apply Nat.leb_le in H1. apply Nat.leb_le in H2. split; assumption.
Qed.

Lemma float_of_int_ok (n : Z) (f : float) :
  float_of_int n = Ok f -> f = PyFloat.round n 0.
Proof.
  unfold float_of_int, PyFloat.of_int.
  destruct (PyFloat.round n 0); intros H; inversion H; reflexivity.
Qed.

(** Whenever [clean_score] returns, it returns the number section 4.2 of
    the specification asks for. *)
Lemma clean_score_meets_spec (value : json) (f : float) :
  clean_score value = Ok f -> f = spec_normalize value.
Proof.
  destruct value as [| b | n | g | s | l | its]; simpl; intros H;
    try (inversion H; reflexivity).
  - apply float_of_int_ok in H. exact H.
  - apply float_of_int_ok in H. exact H.
  - destruct (is_absence_marker (strip (chars s))); [inversion H; reflexivity |].
    destruct (numeric_match (strip (chars s))) as [| c run] eqn:Hrun.
    + inversion H; subst.
      rewrite numeric_match_single_point; rewrite Hrun; [reflexivity |].
      unfold count_dots. simpl. lia.
    + pose proof (float_of_run_ok _ _ H) as [Hdots _].
      rewrite numeric_match_single_point; rewrite Hrun; [| exact Hdots].
      rewrite H. reflexivity.
Qed.

(** C1: the normalization does raise.  A run with a second point, or a
    run made of a point alone, reaches [float] and fails there with
    [ValueError]; an integer beyond the range of a double fails with
    [OverflowError]. *)
Theorem clean_score_raises :
  clean_score (JStr "1.2.3")
  = Raise (ValueError "could not convert string to float: '1.2.3'")
  /\ clean_score (JStr ".")
     = Raise (ValueError "could not convert string to float: '.'")
  /\ clean_score (JInt (2 ^ 1024))
     = Raise (OverflowError "int too large to convert to float").
Proof. repeat split; vm_compute; reflexivity. Qed.

(** C3: on a string with a second point in its leading run the code
    raises, where the specification takes the run up to the second point
    and returns its number: 12.5 for ["12.5.1(Late)"]. *)
Theorem clean_score_second_point_diverges :
  clean_score (JStr "12.5.1(Late)")
  = Raise (ValueError "could not convert string to float: '12.5.1'")
  /\ spec_normalize (JStr "12.5.1(Late)") = PyFloat.lit (25 * 2 ^ 48) (-49).
Proof. split; vm_compute; reflexivity. Qed.

(** ** The merge loop *)

Lemma get_ok (obj : json) (key : string) (default v : json) :
  get obj key default = Ok v ->
  exists fields,
    obj = JDict fields
    /\ v = match lookup key fields with Some w => w | None => default end.
Proof.
  destruct obj; simpl; try discriminate.
  intros H. exists items0. split; [reflexivity |].
  destruct (lookup key items0); inversion H; reflexivity.
Qed.

(** What a record built for one identity entry holds. *)
Lemma build_record_ok (manual_overall : json) (roll_no : string)
    (core_data : json) (r : record) :
  build_record manual_overall roll_no core_data = Ok r ->
  exists scores fields,
    manual_overall = JDict scores
    /\ core_data = JDict fields
    /\ Name r = name_of fields
    /\ RollNo r = roll_no_of roll_no fields
    /\ Total r
       = PyFloat.add (PyFloat.add (OverallPseudocode r) (OverallCoding r))
           (OverallDailyTest r)
    /\ Rank r = None
    /\ (lookup roll_no scores = None ->
        OverallPseudocode r = PyFloat.zero
        /\ OverallCoding r = PyFloat.zero
        /\ OverallDailyTest r = PyFloat.zero
        /\ Total r = PyFloat.zero).
Proof.
  unfold build_record. intros H.
  bind_inv H. rename a into overall_data, Ha into Hoverall.
  bind_inv H. rename a into name, Ha into Hname.
  bind_inv H. rename a into regd, Ha into Hregd.
  bind_inv H. rename a into v1, Ha into Hv1.
  bind_inv H. rename a into p, Ha into Hp.
  bind_inv H. rename a into v2, Ha into Hv2.
  bind_inv H. rename a into c, Ha into Hc.
  bind_inv H. rename a into v3, Ha into Hv3.
  bind_inv H. rename a into d, Ha into Hd.
  inversion H; subst r; clear H. simpl.
  apply get_ok in Hoverall. destruct Hoverall as [scores [-> Hov]].
  apply get_ok in Hname. destruct Hname as [fields [-> Hname]].
  apply get_ok in Hregd. destruct Hregd as [fields' [E Hregd]].
  inversion E; subst fields'; clear E.
  exists scores, fields.
  split; [reflexivity |]. split; [reflexivity |].
  split; [exact Hname |]. split; [exact Hregd |].
  split; [reflexivity |]. split; [reflexivity |].
  intros Habsent. rewrite Habsent in Hov. subst overall_data.
  simpl in Hv1, Hv2, Hv3.
  inversion Hv1; subst v1. inversion Hv2; subst v2. inversion Hv3; subst v3.
  vm_compute in Hp, Hc, Hd.
  inversion Hp. inversion Hc. inversion Hd. repeat split.
Qed.

(** The loop returns one record per entry, in the order of the entries. *)
Lemma build_records_ok (manual_overall : json) (its : list (string * json)) :
  forall built,
    build_records manual_overall its = Ok built ->
    Forall2 (fun it r => build_record manual_overall (fst it) (snd it) = Ok r)
      its built.
Proof.
  induction its as [| [roll_no core_data] rest IH]; simpl; intros built H.
  - inversion H. constructor.
  - bind_inv H. rename a into r, Ha into Hr.
    bind_inv H. rename a into rs, Ha into Hrs.
    inversion H; subst built.
    constructor; [exact Hr | apply IH; exact Hrs].
Qed.

Lemma build_records_returns (manual_overall : json) (its : list (string * json)) :
  (forall it, In it its ->
     returns (build_record manual_overall (fst it) (snd it))) ->
  returns (build_records manual_overall its).
Proof.
  induction its as [| [roll_no core_data] rest IH]; simpl; intros H.
  - exists []. reflexivity.
  - destruct (H (roll_no, core_data) (or_introl eq_refl)) as [r Hr].
    destruct IH as [rs Hrs]; [intros it Hit; apply H; right; exact Hit |].
    simpl in Hr. rewrite Hr, Hrs. exists (r :: rs). reflexivity.
Qed.

(** ** Sorting *)

Lemma insert_desc_perm (x : record) (l : list record) :
  Permutation (insert_desc x l) (x :: l).
Proof.
  induction l as [| y l IH]; simpl; [apply Permutation_refl |].
  destruct (PyFloat.ltb (Total x) (Total y)).
  - apply perm_trans with (y :: x :: l);
      [apply perm_skip; exact IH | apply perm_swap].
  - apply Permutation_refl.
Qed.

Lemma sort_desc_perm (l : list record) : Permutation (sort_desc l) l.
Proof.
  induction l as [| x l IH]; simpl; [apply perm_nil |].
  apply perm_trans with (x :: sort_desc l);
    [apply insert_desc_perm | apply perm_skip; exact IH].
Qed.

(** ** The ranking loop keeps every field but [Rank] *)

Lemma clear_rank_set_rank (r : record) (k : nat) :
  clear_rank (set_rank r k) = clear_rank r.
Proof. reflexivity. Qed.

Lemma rank_loop_clear (records : list record) (todo : list record) :
  forall i current_rank,
    map clear_rank (rank_loop records i current_rank todo) = map clear_rank todo.
Proof.
  induction todo as [| r todo IH]; simpl; intros i current_rank;
    [reflexivity |].
  rewrite IH. reflexivity.
Qed.

Lemma assign_ranks_clear (records : list record) :
  map clear_rank (assign_ranks records) = map clear_rank records.
Proof. apply rank_loop_clear. Qed.

Lemma assign_ranks_length (records : list record) :
  List.length (assign_ranks records) = List.length records.
Proof.
  rewrite <- (length_map clear_rank (assign_ranks records)).
  rewrite assign_ranks_clear. apply length_map.
Qed.

Lemma clear_rank_fields (r r0 : record) :
  clear_rank r = clear_rank r0 ->
  Name r = Name r0 /\ RollNo r = RollNo r0
  /\ OverallPseudocode r = OverallPseudocode r0
  /\ OverallCoding r = OverallCoding r0
  /\ OverallDailyTest r = OverallDailyTest r0
  /\ Total r = Total r0.
Proof.
  unfold clear_rank. intros H. inversion H. repeat split; assumption.
Qed.

(** ** The shape of a merge that returns *)

Lemma merge_ok (student_core manual_overall : json) (recs : list record) :
  merge student_core manual_overall = Ok recs ->
  exists its built,
    student_core = JDict its
    /\ build_records manual_overall its = Ok built
    /\ recs = assign_ranks (sort_desc built).
Proof.
  unfold merge. intros H.
  bind_inv H. rename a into its, Ha into Hits.
  bind_inv H. rename a into built, Ha into Hbuilt.
  inversion H; subst recs.
  destruct student_core; simpl in Hits; try discriminate.
  inversion Hits; subst. exists its, built. repeat split. exact Hbuilt.
Qed.

(** Every record of the output is a built record with its rank set. *)
Lemma output_from_built (built : list record) (r : record) :
  In r (assign_ranks (sort_desc built)) ->
  exists r0, In r0 built /\ clear_rank r = clear_rank r0.
Proof.
  intros H.
  apply (in_map clear_rank) in H. rewrite assign_ranks_clear in H.
  apply in_map_iff in H. destruct H as [r0 [E H0]].
  exists r0. split; [| symmetry; exact E].
  apply (Permutation_in r0 (sort_desc_perm built)). exact H0.
Qed.

(** Every built record is in the output, with a rank. *)
Lemma built_in_output (built : list record) (r0 : record) :
  In r0 built ->
  exists r, In r (assign_ranks (sort_desc built)) /\ clear_rank r = clear_rank r0.
Proof.
  intros H.
  apply (Permutation_in r0 (Permutation_sym (sort_desc_perm built))) in H.
  apply (in_map clear_rank) in H. rewrite <- assign_ranks_clear in H.
  apply in_map_iff in H. destruct H as [r [E H]].
  exists r. split; assumption.
Qed.

Lemma Forall2_in_left {A B : Type} (R : A -> B -> Prop) (l : list A) (l' : list B) (a : A) :
  Forall2 R l l' -> In a l -> exists b, In b l' /\ R a b.
Proof.
  induction 1 as [| x y l l' Hxy _ IH]; simpl; intros Hin; [contradiction |].
  destruct Hin as [-> | Hin].
  - exists y. split; [left; reflexivity | exact Hxy].
  - destruct (IH Hin) as [b [Hb Hab]]. exists b. split; [right; exact Hb | exact Hab].
Qed.

Lemma Forall2_in_right {A B : Type} (R : A -> B -> Prop) (l : list A) (l' : list B) (b : B) :
  Forall2 R l l' -> In b l' -> exists a, In a l /\ R a b.
Proof.
  induction 1 as [| x y l l' Hxy _ IH]; simpl; intros Hin; [contradiction |].
  destruct Hin as [-> | Hin].
  - exists x. split; [left; reflexivity | exact Hxy].
  - destruct (IH Hin) as [a [Ha Hab]]. exists a. split; [right; exact Ha | exact Hab].
Qed.

(** The sample document parses to the record the specification gives. *)
Lemma sample_document_parses :
  parse_html_file_content sample_loads sample_document = Ok [sample_record].
Proof. vm_compute. reflexivity. Qed.

Lemma sample_merge : merge core_value overall_value = Ok [sample_record].
Proof. vm_compute. reflexivity. Qed.

(** ** Totals *)

(** C5: in every record of the merge output, [Total] is the float sum
    [(OverallPseudocode + OverallCoding) + OverallDailyTest] of the three
    normalized components, as the code adds them. *)
Theorem total_is_sum (student_core manual_overall : json)
    (recs : list record) (r : record) :
  merge student_core manual_overall = Ok recs ->
  In r recs ->
  Total r
  = PyFloat.add (PyFloat.add (OverallPseudocode r) (OverallCoding r))
      (OverallDailyTest r).
Proof.
  intros Hmerge Hin.
  apply merge_ok in Hmerge. destruct Hmerge as [its [built [-> [Hbuilt ->]]]].
  apply output_from_built in Hin. destruct Hin as [r0 [Hin0 E]].
  apply clear_rank_fields in E.
  destruct E as [_ [_ [Ep [Ec [Ed Et]]]]].
  rewrite Ep, Ec, Ed, Et.
  destruct (Forall2_in_right _ _ _ _ (build_records_ok _ _ _ Hbuilt) Hin0)
    as [[k core] [_ Hr0]].
  apply build_record_ok in Hr0.
  destruct Hr0 as [scores [fields [_ [_ [_ [_ [Hsum _]]]]]]].
  exact Hsum.
Qed.

Lemma total_is_sum_witness :
  Total sample_record
  = PyFloat.add
      (PyFloat.add (OverallPseudocode sample_record) (OverallCoding sample_record))
      (OverallDailyTest sample_record).
Proof.
  apply (total_is_sum core_value overall_value [sample_record]).
  - vm_compute. reflexivity.
  - left. reflexivity.
Defined.

(** ** Identity fields *)

(** C9: the record built for an identity entry takes [Name] from the
    entry, or the string ["Unknown"] when the entry has no [Name], and
    [RollNo] from [regdNo], or the join key when the entry has no
    [regdNo]; the record is in the output. *)
Theorem identity_defaults (ids : list (string * json)) (manual_overall : json)
    (recs : list record) (roll_no : string) (core_data : json) :
  merge (JDict ids) manual_overall = Ok recs ->
  In (roll_no, core_data) ids ->
  exists fields r,
    core_data = JDict fields
    /\ In r recs
    /\ Name r = match lookup "Name" fields with
                | Some v => v
                | None => JStr "Unknown"
                end
    /\ RollNo r = match lookup "regdNo" fields with
                  | Some v => v
                  | None => JStr roll_no
                  end.
Proof.
  intros Hmerge Hin.
  apply merge_ok in Hmerge. destruct Hmerge as [its [built [E [Hbuilt ->]]]].
  inversion E; subst its; clear E.
  destruct (Forall2_in_left _ _ _ _ (build_records_ok _ _ _ Hbuilt) Hin)
    as [r0 [Hin0 Hr0]].
  simpl in Hr0. apply build_record_ok in Hr0.
  destruct Hr0 as [scores [fields [_ [-> [Hname [Hroll _]]]]]].
  destruct (built_in_output built r0 Hin0) as [r [Hr Hclear]].
  apply clear_rank_fields in Hclear. destruct Hclear as [En [Er _]].
  exists fields, r. split; [reflexivity |]. split; [exact Hr |].
  rewrite En, Er. split; assumption.
Qed.

Lemma identity_defaults_witness :
  exists fields r,
    JDict [("Name", JStr "A")] = JDict fields
    /\ In r [sample_record]
    /\ Name r = match lookup "Name" fields with
                | Some v => v
                | None => JStr "Unknown"
                end
    /\ RollNo r = match lookup "regdNo" fields with
                  | Some v => v
                  | None => JStr "R1"
                  end.
Proof.
  apply (identity_defaults
           [("R1", JDict [("Name", JStr "A")])] overall_value
           [sample_record] "R1" (JDict [("Name", JStr "A")])).
  - vm_compute. reflexivity.
  - left. reflexivity.
Defined.

(** ** One record per identity *)

Lemma score_field_returns (fields : list (string * json)) (key : string) :
  (forall v, lookup key fields = Some v -> returns (clean_score v)) ->
  exists v f, get (JDict fields) key (JInt 0) = Ok v /\ clean_score v = Ok f.
Proof.
  intros H. simpl.
  destruct (lookup key fields) as [v |] eqn:Hkey.
  - destruct (H v eq_refl) as [f Hf]. exists v, f. split; [reflexivity | exact Hf].
  - exists (JInt 0), PyFloat.zero. split; reflexivity.
Qed.

Lemma score_set_returns (overall_data : json) :
  score_set_ok overall_data ->
  exists v1 p v2 c v3 d,
    get overall_data "OverallPseudocode" (JInt 0) = Ok v1 /\ clean_score v1 = Ok p
    /\ get overall_data "OverallCoding" (JInt 0) = Ok v2 /\ clean_score v2 = Ok c
    /\ get overall_data "OverallDaily" (JInt 0) = Ok v3 /\ clean_score v3 = Ok d.
Proof.
  intros [fields [-> Hok]].
  destruct (score_field_returns fields "OverallPseudocode") as [v1 [p [G1 S1]]].
  { intros v. apply Hok. simpl. auto. }
  destruct (score_field_returns fields "OverallCoding") as [v2 [c [G2 S2]]].
  { intros v. apply Hok. simpl. auto. }
  destruct (score_field_returns fields "OverallDaily") as [v3 [d [G3 S3]]].
  { intros v. apply Hok. simpl. auto. }
  exists v1, p, v2, c, v3, d. repeat split; assumption.
Qed.

Lemma empty_score_set_ok : score_set_ok (JDict []).
Proof.
  exists []. split; [reflexivity |]. intros key v _ H. discriminate H.
Qed.

Lemma build_record_returns (ids : list (string * json)) (manual_overall : json)
    (roll_no : string) (core_data : json) :
  well_formed ids manual_overall ->
  In (roll_no, core_data) ids ->
  returns (build_record manual_overall roll_no core_data).
Proof.
  intros [scores [-> Hwf]] Hin.
  destruct (Hwf roll_no core_data Hin) as [[fields ->] Hscores].
  assert (Hset : exists overall_data,
             get (JDict scores) roll_no (JDict []) = Ok overall_data
             /\ score_set_ok overall_data).
  { simpl. destruct (lookup roll_no scores) as [o |] eqn:Ho.
    - exists o. split; [reflexivity | apply Hscores; reflexivity].
    - exists (JDict []). split; [reflexivity | apply empty_score_set_ok]. }
  destruct Hset as [overall_data [Hget Hset]].
  destruct (score_set_returns overall_data Hset)
    as [v1 [p [v2 [c [v3 [d [G1 [S1 [G2 [S2 [G3 S3]]]]]]]]]]].
  unfold build_record. rewrite Hget. cbn [bind].
  simpl (get (JDict fields) _ _).
  destruct (lookup "Name" fields); destruct (lookup "regdNo" fields);
    cbn [bind]; rewrite G1; cbn [bind]; rewrite S1; cbn [bind];
    rewrite G2; cbn [bind]; rewrite S2; cbn [bind];
    rewrite G3; cbn [bind]; rewrite S3; cbn [bind];
    eexists; reflexivity.
Qed.

(** On well-formed mappings the merge returns. *)
Lemma merge_returns (ids : list (string * json)) (manual_overall : json) :
  well_formed ids manual_overall ->
  returns (merge (JDict ids) manual_overall).
Proof.
  intros Hwf. unfold merge. simpl.
  destruct (build_records_returns manual_overall ids) as [built Hbuilt].
  - intros [k core] Hin. simpl. apply (build_record_returns ids); assumption.
  - rewrite Hbuilt. simpl. eexists. reflexivity.
Qed.

Lemma merge_length (ids : list (string * json)) (manual_overall : json)
    (recs : list record) :
  merge (JDict ids) manual_overall = Ok recs ->
  List.length recs = List.length ids.
Proof.
  intros Hmerge.
  apply merge_ok in Hmerge. destruct Hmerge as [its [built [E [Hbuilt ->]]]].
  inversion E; subst its; clear E.
  rewrite assign_ranks_length.
  rewrite (Permutation_length (sort_desc_perm built)).
  symmetry. apply (Forall2_length (build_records_ok _ _ _ Hbuilt)).
Qed.

(** On well-formed mappings the merge returns, and whenever it returns
    the output has as many records as there are identities; an identity
    whose key the score mapping lacks has its record in the output, with
    the three scores and the total at 0.0. *)
Lemma one_record_per_identity (ids : list (string * json)) (manual_overall : json) :
  (well_formed ids manual_overall -> returns (merge (JDict ids) manual_overall))
  /\ forall recs,
       merge (JDict ids) manual_overall = Ok recs ->
       List.length recs = List.length ids
       /\ forall roll_no core_data scores,
            In (roll_no, core_data) ids ->
            manual_overall = JDict scores ->
            lookup roll_no scores = None ->
            exists fields r,
              core_data = JDict fields
              /\ In r recs
              /\ Name r = name_of fields
              /\ RollNo r = roll_no_of roll_no fields
              /\ OverallPseudocode r = PyFloat.zero
              /\ OverallCoding r = PyFloat.zero
              /\ OverallDailyTest r = PyFloat.zero
              /\ Total r = PyFloat.zero.
Proof.
  split; [apply merge_returns |].
  intros recs Hmerge. split; [apply (merge_length _ _ _ Hmerge) |].
  intros roll_no core_data scores Hin -> Habsent.
  apply merge_ok in Hmerge. destruct Hmerge as [its [built [E [Hbuilt ->]]]].
  inversion E; subst its; clear E.
  destruct (Forall2_in_left _ _ _ _ (build_records_ok _ _ _ Hbuilt) Hin)
    as [r0 [Hin0 Hr0]].
  simpl in Hr0. apply build_record_ok in Hr0.
  destruct Hr0 as [scores' [fields [E [-> [Hname [Hroll [_ [_ Hzero]]]]]]]].
  inversion E; subst scores'; clear E.
  destruct (Hzero Habsent) as [Hp [Hc [Hd Ht]]].
  destruct (built_in_output built r0 Hin0) as [r [Hr Hclear]].
  apply clear_rank_fields in Hclear.
  destruct Hclear as [En [Er [Ep [Ec [Ed Et]]]]].
  exists fields, r. split; [reflexivity |]. split; [exact Hr |].
  rewrite En, Er, Ep, Ec, Ed, Et. repeat split; assumption.
Qed.

Lemma two_students_well_formed : well_formed two_students overall_value.
Proof.
  eexists. split; [reflexivity |].
  intros k core_data Hin.
  destruct Hin as [E | [E | []]]; inversion E; subst; clear E.
  - split; [eexists; reflexivity |].
    intros overall_data Ho. inversion Ho; subst; clear Ho.
    eexists. split; [reflexivity |].
    intros key v Hkey Hv.
    destruct Hkey as [<- | [<- | [<- | []]]]; inversion Hv; subst;
      eexists; vm_compute; reflexivity.
  - split; [eexists; reflexivity |].
    intros overall_data Ho. discriminate Ho.
Defined.

Lemma one_record_per_identity_witness :
  returns (merge (JDict two_students) overall_value)
  /\ List.length [sample_record; absent_record] = List.length two_students
  /\ exists fields r,
       JDict [("regdNo", JStr "22")] = JDict fields
       /\ In r [sample_record; absent_record]
       /\ Name r = name_of fields
       /\ RollNo r = roll_no_of "R2" fields
       /\ OverallPseudocode r = PyFloat.zero
       /\ OverallCoding r = PyFloat.zero
       /\ OverallDailyTest r = PyFloat.zero
       /\ Total r = PyFloat.zero.
Proof.
  destruct (one_record_per_identity two_students overall_value) as [Hret Hout].
  split; [exact (Hret two_students_well_formed) |].
  destruct (Hout [sample_record; absent_record]) as [Hlen Habsent].
  - vm_compute. reflexivity.
  - split; [exact Hlen |].
    apply (Habsent "R2" (JDict [("regdNo", JStr "22")])
             [("R1", JDict [("OverallPseudocode", JInt 50);
                            ("OverallCoding", JStr "-");
                            ("OverallDaily", JStr "30(Late)")])]).
    + right. left. reflexivity.
    + reflexivity.
    + reflexivity.
Defined.

(** ** Extraction *)

Lemma not_found_is_not_decode (var_name var_name' : list ascii) (diagnostic : string) :
  NotFoundError var_name <> DecodeError var_name' diagnostic.
Proof. unfold NotFoundError, DecodeError. simpl. discriminate. Qed.

(** When the loop over the braces never leaves through [break],
    [end_pos] stays at [start_pos] and the decoder gets the empty
    string. *)
Lemma unbalanced_gives_empty (content : list ascii) (start_pos : nat) :
  scan 0 start_pos (skipn start_pos content) = None ->
  json_str content start_pos = [].
Proof.
  intros H. unfold json_str, find_end, slice. rewrite H.
  rewrite Nat.sub_diag. reflexivity.
Qed.

(** *** The pattern and its matcher *)

Lemma strip_prefix_spec (lit s t : list ascii) :
  strip_prefix lit s = Some t <-> s = (lit ++ t)%list.
Proof.
  revert s. induction lit as [| a lit IH]; intros s; simpl.
  - split; [intros H; inversion H; reflexivity | intros ->; reflexivity].
  - destruct s as [| b s]; [split; discriminate |].
    destruct (Ascii.eqb a b) eqn:E.
    + apply Ascii.eqb_eq in E. subst b. rewrite IH.
      split; [intros ->; reflexivity | intros H; inversion H; reflexivity].
    + apply Ascii.eqb_neq in E.
      split; [discriminate | intros H; inversion H; subst; contradiction].
Qed.

Lemma take_drop_while (p : ascii -> bool) (s : list ascii) :
  s = (take_while p s ++ drop_while p s)%list.
Proof.
  induction s as [| c s IH]; simpl; [reflexivity |].
  destruct (p c); simpl; [f_equal; exact IH | reflexivity].
Qed.

Lemma take_while_all (p : ascii -> bool) (s : list ascii) :
  forallb p (take_while p s) = true.
Proof.
  induction s as [| c s IH]; simpl; [reflexivity |].
  destruct (p c) eqn:E; simpl; [rewrite E; exact IH | reflexivity].
Qed.

Lemma drop_while_app (p : ascii -> bool) (w t : list ascii) :
  forallb p w = true -> drop_while p (w ++ t) = drop_while p t.
Proof.
  induction w as [| c w IH]; simpl; intros H; [reflexivity |].
  apply andb_true_iff in H. destruct H as [Hc Hw].
  rewrite Hc. apply IH. exact Hw.
Qed.

Lemma drop_while_stop (p : ascii -> bool) (c : ascii) (t : list ascii) :
  p c = false -> drop_while p (c :: t) = c :: t.
Proof. intros H. simpl. rewrite H. reflexivity. Qed.

Lemma equals_not_space : is_space equals = false.
Proof. reflexivity. Qed.

Lemma lbrace_not_space : is_space lbrace = false.
Proof. reflexivity. Qed.

Lemma word_not_space (c : ascii) : is_word c = true -> is_space c = false.
Proof.
  unfold is_word, is_space, is_digit. generalize (code c). intros n H.
  repeat (apply orb_true_iff in H; destruct H as [H | H]);
    repeat (apply andb_true_iff in H; destruct H as [? H]);
    repeat match goal with
           | h : (_ <=? _)%nat = true |- _ => apply Nat.leb_le in h
           | h : (_ =? _)%nat = true |- _ => apply Nat.eqb_eq in h
           end;
    repeat (apply orb_false_iff; split);
    try (apply andb_false_iff;
         first [left; apply Nat.leb_gt; lia | right; apply Nat.leb_gt; lia]);
    try (apply Nat.eqb_neq; lia).
Qed.

(** [\s*=\s*] and the brace: the matcher against the decomposition. *)
Lemma match_assignment_spec (s s3 : list ascii) :
  match_assignment s = Some s3
  <-> exists ws2 ws3 rest,
        s = (ws2 ++ equals :: ws3 ++ lbrace :: rest)%list
        /\ all_space ws2 /\ all_space ws3 /\ s3 = lbrace :: rest.
Proof.
  unfold match_assignment, all_space. split.
  - intros H.
    destruct (drop_while is_space s) as [| c s'] eqn:Hs; [discriminate |].
    destruct (Ascii.eqb c equals) eqn:Hc; [| discriminate].
    apply Ascii.eqb_eq in Hc. subst c.
    destruct (drop_while is_space s') as [| b rest] eqn:Hs'; [discriminate |].
    destruct (Ascii.eqb b lbrace) eqn:Hb; [| discriminate].
    apply Ascii.eqb_eq in Hb. subst b. inversion H; subst s3; clear H.
    exists (take_while is_space s), (take_while is_space s'), rest.
    split; [| split; [apply take_while_all | split; [apply take_while_all | reflexivity]]].
    rewrite <- Hs'. rewrite <- (take_drop_while is_space s').
    rewrite <- Hs. apply take_drop_while.
  - intros [ws2 [ws3 [rest [-> [H2 [H3 ->]]]]]].
    rewrite (drop_while_app is_space ws2 _ H2).
    rewrite (drop_while_stop is_space equals _ equals_not_space).
    rewrite Ascii.eqb_refl.
    rewrite (drop_while_app is_space ws3 _ H3).
    rewrite (drop_while_stop is_space lbrace _ lbrace_not_space).
    rewrite Ascii.eqb_refl. reflexivity.
Qed.

(** After the name, or after the whitespace behind [const] when the name
    is empty, the text goes on with a character that is not whitespace. *)
Lemma drop_while_before_name (var_name ws2 tail : list ascii) :
  plain_name var_name -> all_space ws2 ->
  exists s2,
    strip_prefix var_name
      (drop_while is_space (var_name ++ ws2 ++ equals :: tail)) = Some s2
    /\ match_assignment s2 = match_assignment (ws2 ++ equals :: tail)
    /\ List.length s2 <= List.length (ws2 ++ equals :: tail).
Proof.
  intros Hname Hws2. destruct var_name as [| c v].
  - simpl. eexists. split; [reflexivity |]. split.
    + unfold match_assignment.
      rewrite (drop_while_app is_space ws2 _ Hws2).
      rewrite (drop_while_stop is_space equals _ equals_not_space).
      reflexivity.
    + rewrite (drop_while_app is_space ws2 _ Hws2).
      rewrite (drop_while_stop is_space equals _ equals_not_space).
      rewrite length_app. simpl. lia.
  - unfold plain_name in Hname. simpl in Hname.
    apply andb_true_iff in Hname. destruct Hname as [Hc _].
    change ((c :: v) ++ ws2 ++ equals :: tail)%list
      with (c :: (v ++ ws2 ++ equals :: tail))%list.
    rewrite (drop_while_stop is_space c _ (word_not_space c Hc)).
    exists (ws2 ++ equals :: tail)%list. split; [| split; [reflexivity | lia]].
    apply (strip_prefix_spec (c :: v)). reflexivity.
Qed.

Ltac list_length :=
  repeat first [rewrite length_app | progress cbn [Datatypes.length]];
  change (Datatypes.length const) with 5.

(** One attempt of the matcher succeeds exactly on the texts that start
    with a match of the pattern. *)
Lemma match_here_spec (var_name s : list ascii) (off : nat) :
  plain_name var_name ->
  (match_here var_name s = Some off <-> matches_at s var_name 0 off).
Proof.
  intros Hname. unfold match_here. split.
  - intros H.
    destruct (strip_prefix const s) as [[| c s1] |] eqn:Hconst; try discriminate.
    destruct (is_space c) eqn:Hc; [| discriminate].
    destruct (strip_prefix var_name (drop_while is_space s1)) as [s2 |] eqn:Hv;
      [| discriminate].
    destruct (match_assignment s2) as [s3 |] eqn:Hassign; [| discriminate].
    inversion H; subst off; clear H.
    apply strip_prefix_spec in Hconst. apply strip_prefix_spec in Hv.
    apply match_assignment_spec in Hassign.
    destruct Hassign as [ws2 [ws3 [rest [-> [H2 [H3 ->]]]]]].
    exists [], (c :: take_while is_space s1), ws2, ws3, rest.
    assert (Hs : s = (const ++ (c :: take_while is_space s1) ++ var_name ++ ws2
                        ++ equals :: ws3 ++ lbrace :: rest)%list).
    { rewrite Hconst. f_equal. simpl. f_equal.
      rewrite <- Hv. apply take_drop_while. }
    split; [exact Hs |]. split; [reflexivity |].
    split; [discriminate |].
    split; [unfold all_space; simpl; rewrite Hc; apply take_while_all |].
    split; [exact H2 |]. split; [exact H3 |].
    rewrite Hs. list_length. lia.
  - intros [pre [ws1 [ws2 [ws3 [rest [Hs [Hpre [Hne [H1 [H2 [H3 ->]]]]]]]]]]].
    destruct pre; [| discriminate]. simpl in Hs.
    destruct ws1 as [| c w]; [contradiction |].
    unfold all_space in H1. simpl in H1.
    apply andb_true_iff in H1. destruct H1 as [Hc Hw].
    assert (Hconst : strip_prefix const s
                     = Some (c :: w ++ var_name ++ ws2 ++ equals :: ws3
                               ++ lbrace :: rest)%list).
    { apply strip_prefix_spec. exact Hs. }
    rewrite Hconst, Hc.
    rewrite (drop_while_app is_space w _ Hw).
    destruct (drop_while_before_name var_name ws2 (ws3 ++ lbrace :: rest) Hname H2)
      as [s2 [Hv [Hassign _]]].
    rewrite Hv, Hassign.
    assert (Hm : match_assignment (ws2 ++ equals :: ws3 ++ lbrace :: rest)
                 = Some (lbrace :: rest)).
    { apply match_assignment_spec. exists ws2, ws3, rest.
      repeat split; assumption. }
    rewrite Hm. f_equal. rewrite Hs. list_length. lia.
Qed.

Lemma matches_at_tail (c : ascii) (s var_name : list ascii) (p b : nat) :
  matches_at (c :: s) var_name (S p) b ->
  exists b', b = S b' /\ matches_at s var_name p b'.
Proof.
  intros [pre [ws1 [ws2 [ws3 [rest [Hs [Hpre [Hne [H1 [H2 [H3 ->]]]]]]]]]]].
  destruct pre as [| a pre]; [discriminate |].
  simpl in Hs, Hpre. inversion Hs; subst a. inversion Hpre; subst p.
  eexists. split; [simpl; reflexivity |].
  exists pre, ws1, ws2, ws3, rest. repeat split; assumption.
Qed.

Lemma matches_at_cons (c : ascii) (s var_name : list ascii) (p b : nat) :
  matches_at s var_name p b -> matches_at (c :: s) var_name (S p) (S b).
Proof.
  intros [pre [ws1 [ws2 [ws3 [rest [Hs [Hpre [Hne [H1 [H2 [H3 ->]]]]]]]]]]].
  exists (c :: pre), ws1, ws2, ws3, rest.
  split; [simpl; rewrite Hs; reflexivity |].
  split; [simpl; rewrite Hpre; reflexivity |].
  repeat split; assumption.
Qed.

Lemma matches_at_nil (var_name : list ascii) (p b : nat) :
  ~ matches_at [] var_name p b.
Proof.
  intros [pre [ws1 [ws2 [ws3 [rest [Hs _]]]]]].
  destruct pre; discriminate Hs.
Qed.

(** [re.search] returns the brace of the leftmost match, and nothing
    when the text has no match. *)
Lemma search_spec (var_name : list ascii) :
  plain_name var_name ->
  forall s pos,
    match search var_name pos s with
    | Some start_pos =>
        exists p b,
          start_pos = pos + b
          /\ matches_at s var_name p b
          /\ forall p' b', matches_at s var_name p' b' -> p <= p'
    | None => forall p b, ~ matches_at s var_name p b
    end.
Proof.
  intros Hname. induction s as [| c s IH]; intros pos.
  - simpl. destruct (match_here var_name []) as [off |] eqn:Hhere.
    + apply (match_here_spec var_name [] off Hname) in Hhere.
      destruct (matches_at_nil _ _ _ Hhere).
    + intros p b. apply matches_at_nil.
  - simpl. destruct (match_here var_name (c :: s)) as [off |] eqn:Hhere.
    + apply (match_here_spec var_name (c :: s) off Hname) in Hhere.
      exists 0, off. split; [reflexivity |]. split; [exact Hhere |].
      intros p' b' _. lia.
    + specialize (IH (S pos)).
      destruct (search var_name (S pos) s) as [start_pos |].
      * destruct IH as [p [b [-> [Hm Hleast]]]].
        exists (S p), (S b). split; [lia |].
        split; [apply matches_at_cons; exact Hm |].
        intros p' b' Hm'. destruct p' as [| q].
        -- apply (match_here_spec var_name (c :: s) b' Hname) in Hm'.
           rewrite Hm' in Hhere. discriminate Hhere.
        -- apply matches_at_tail in Hm'. destruct Hm' as [b'' [_ Hm']].
           specialize (Hleast q b'' Hm'). lia.
      * intros p b Hm. destruct p as [| q].
        -- apply (match_here_spec var_name (c :: s) b Hname) in Hm.
           rewrite Hm in Hhere. discriminate Hhere.
        -- apply matches_at_tail in Hm. destruct Hm as [b'' [_ Hm]].
           exact (IH q b'' Hm).
Qed.

Lemma matches_at_functional (var_name : list ascii) :
  plain_name var_name ->
  forall s p b b',
    matches_at s var_name p b -> matches_at s var_name p b' -> b = b'.
Proof.
  intros Hname s p. revert s. induction p as [| p IH]; intros s b b' H H'.
  - apply (match_here_spec var_name s b Hname) in H.
    apply (match_here_spec var_name s b' Hname) in H'.
    rewrite H in H'. inversion H'. reflexivity.
  - destruct s as [| c s]; [destruct (matches_at_nil _ _ _ H) |].
    apply matches_at_tail in H. destruct H as [b1 [-> H]].
    apply matches_at_tail in H'. destruct H' as [b1' [-> H']].
    f_equal. exact (IH s b1 b1' H H').
Qed.

(** C2, as the code has it: the keyword [const] and whitespace after it
    are part of the pattern.  [NotFoundError] is raised exactly when the
    text has no match of [const\s+NAME\s*=\s*\{], and otherwise the
    extraction decodes the substring that starts at the brace of the
    leftmost match. *)
Theorem extract_finds_const_assignment (json_loads : list ascii -> json + string)
    (content var_name : list ascii) :
  plain_name var_name ->
  (extract_json_object json_loads content var_name = Raise (NotFoundError var_name)
   <-> forall p b, ~ matches_at content var_name p b)
  /\ forall p b,
       matches_at content var_name p b ->
       (forall p' b', matches_at content var_name p' b' -> p <= p') ->
       search var_name 0 content = Some b
       /\ extract_json_object json_loads content var_name
          = match json_loads (json_str content b) with
            | inl value => Ok value
            | inr e => Raise (DecodeError var_name e)
            end.
Proof.
  intros Hname.
  pose proof (search_spec var_name Hname content 0) as Hsearch.
  unfold extract_json_object.
  destruct (search var_name 0 content) as [start_pos |].
  - destruct Hsearch as [p0 [b0 [-> [Hm0 Hleast0]]]]. simpl. split.
    + split.
      * intros H. exfalso.
        destruct (json_loads (json_str content b0)) as [v | e];
          [discriminate H |].
        assert (E : NotFoundError var_name = DecodeError var_name e)
          by congruence.
        exact (not_found_is_not_decode _ _ _ E).
      * intros H. destruct (H p0 b0 Hm0).
    + intros p b Hm Hleast.
      assert (Hp : p = p0).
      { apply Nat.le_antisymm; [apply (Hleast p0 b0 Hm0) | apply (Hleast0 p b Hm)]. }
      subst p0.
      rewrite (matches_at_functional var_name Hname content p b b0 Hm Hm0).
      split; reflexivity.
  - split.
    + split; [intros _; exact Hsearch | intros _; reflexivity].
    + intros p b Hm _. destruct (Hsearch p b Hm).
Qed.

Lemma sample_document_match :
  matches_at sample_document (chars "studentCore") 0 20.
Proof.
  apply (match_here_spec (chars "studentCore") sample_document 20);
    vm_compute; reflexivity.
Defined.

Lemma extract_finds_const_assignment_witness :
  search (chars "studentCore") 0 sample_document = Some 20
  /\ extract_json_object sample_loads sample_document (chars "studentCore")
     = match sample_loads (json_str sample_document 20) with
       | inl value => Ok value
       | inr e => Raise (DecodeError (chars "studentCore") e)
       end.
Proof.
  destruct (extract_finds_const_assignment sample_loads sample_document
              (chars "studentCore")) as [_ H].
  - vm_compute. reflexivity.
  - apply (H 0 20).
    + exact sample_document_match.
    + intros p' b' _. apply Nat.le_0_l.
Defined.

(** C2, as the specification words it, fails: a text that has the name,
    [=] and a brace but no [const] before the name holds an occurrence in
    the sense of the specification, and the extraction raises
    [NotFoundError] on it. *)
Lemma keyword_is_required :
  ~ (extract_json_object sample_loads (chars "studentCore = {}") (chars "studentCore")
     = Raise (NotFoundError (chars "studentCore"))
     <-> forall p, ~ spec_occurrence (chars "studentCore = {}") (chars "studentCore") p).
Proof.
  intros [H _].
  apply (H eq_refl 0).
  exists [], (chars " "), (chars " "), (chars "}").
  repeat split.
Qed.

(** ** The order of floats *)

Lemma ltb_spec (a b : float) :
  not_nan a -> not_nan b ->
  (PyFloat.ltb a b = true <-> lex_lt (ord a) (ord b)).
Proof.
  unfold not_nan, PyFloat.ltb, SFltb, lex_lt.
  destruct a as [sa | sa | | sa ma ea]; destruct b as [sb | sb | | sb mb eb];
    simpl; intros Ha Hb; try discriminate;
    try (destruct sa); try (destruct sb); simpl;
    try (split; [discriminate | lia]);
    try (split; [intros _; lia | reflexivity]).
  - change (Pos.compare_cont Eq ma mb) with (Pos.compare ma mb).
    destruct (Z.compare_spec ea eb); destruct (Pos.compare_spec ma mb); simpl;
      split; try discriminate; try reflexivity; lia.
  - change (Pos.compare_cont Eq ma mb) with (Pos.compare ma mb).
    destruct (Z.compare_spec ea eb); destruct (Pos.compare_spec ma mb); simpl;
      split; try discriminate; try reflexivity; lia.
Qed.

Lemma leb_spec (a b : float) :
  not_nan a -> not_nan b ->
  (PyFloat.leb a b = true <-> ~ lex_lt (ord b) (ord a)).
Proof.
  unfold not_nan, PyFloat.leb, SFleb, lex_lt.
  destruct a as [sa | sa | | sa ma ea]; destruct b as [sb | sb | | sb mb eb];
    simpl; intros Ha Hb; try discriminate;
    try (destruct sa); try (destruct sb); simpl;
    try (split; [discriminate | lia]);
    try (split; [intros _; lia | reflexivity]).
  - change (Pos.compare_cont Eq ma mb) with (Pos.compare ma mb).
    destruct (Z.compare_spec ea eb); destruct (Pos.compare_spec ma mb); simpl;
      split; try discriminate; try reflexivity; lia.
  - change (Pos.compare_cont Eq ma mb) with (Pos.compare ma mb).
    destruct (Z.compare_spec ea eb); destruct (Pos.compare_spec ma mb); simpl;
      split; try discriminate; try reflexivity; lia.
Qed.

Lemma eqb_true_not_nan (a t : float) :
  PyFloat.eqb a t = true -> not_nan a /\ not_nan t.
Proof.
  unfold not_nan, PyFloat.eqb, SFeqb.
  destruct a as [sa | sa | | sa ma ea]; destruct t as [sb | sb | | sb mb eb];
    simpl; try discriminate; split; reflexivity.
Qed.

Lemma eqb_spec (a b : float) :
  not_nan a -> not_nan b ->
  (PyFloat.eqb a b = true <-> ord a = ord b).
Proof.
  unfold not_nan, PyFloat.eqb, SFeqb.
  destruct a as [sa | sa | | sa ma ea]; destruct b as [sb | sb | | sb mb eb];
    simpl; intros Ha Hb; try discriminate;
    try (destruct sa); try (destruct sb); simpl;
    try (split; [discriminate | intros E; inversion E; fail]);
    try (split; reflexivity).
  - change (Pos.compare_cont Eq ma mb) with (Pos.compare ma mb).
    destruct (Z.compare_spec ea eb); destruct (Pos.compare_spec ma mb); simpl;
      split; try discriminate; try reflexivity;
      try (intros E; inversion E; lia); intros _; subst; reflexivity.
  - change (Pos.compare_cont Eq ma mb) with (Pos.compare ma mb).
    destruct (Z.compare_spec ea eb); destruct (Pos.compare_spec ma mb); simpl;
      split; try discriminate; try reflexivity;
      try (intros E; inversion E; lia); intros _; subst; reflexivity.
Qed.

(** Facts of order on floats that are not NaN, through [ord]. *)
Ltac float_order :=
  repeat match goal with
         | H : PyFloat.eqb _ _ = true |- _ =>
             let Hn := fresh "Hn" in
             pose proof (eqb_true_not_nan _ _ H) as Hn; destruct Hn;
             apply eqb_spec in H; [| assumption | assumption]
         end;
  repeat match goal with
         | H : PyFloat.ltb _ _ = true |- _ =>
             apply ltb_spec in H; [| assumption | assumption]
         | H : PyFloat.ltb _ _ = false |- _ =>
             apply not_true_iff_false in H;
             rewrite ltb_spec in H; [| assumption | assumption]
         | H : PyFloat.leb _ _ = true |- _ =>
             apply leb_spec in H; [| assumption | assumption]
         | H : geb _ _ = true |- _ => unfold geb in H
         end;
  try match goal with
      | |- geb _ _ = true => unfold geb
      end;
  try match goal with
      | |- PyFloat.leb _ _ = true => apply leb_spec; [assumption | assumption |]
      | |- PyFloat.ltb _ _ = true => apply ltb_spec; [assumption | assumption |]
      | |- PyFloat.ltb _ _ = false =>
          apply not_true_iff_false; rewrite ltb_spec; [| assumption | assumption]
      | |- PyFloat.eqb _ _ = true => apply eqb_spec; [assumption | assumption |]
      end;
  unfold lex_lt in *;
  repeat match goal with
         | |- context [ord ?x] =>
             let x1 := fresh "x" in let x2 := fresh "x" in let x3 := fresh "x" in
             destruct (ord x) as [[x1 x2] x3]
         | H : context [ord ?x] |- _ =>
             let x1 := fresh "x" in let x2 := fresh "x" in let x3 := fresh "x" in
             destruct (ord x) as [[x1 x2] x3]
         end;
  try match goal with
      | |- (_, _, _) = (_, _, _) => f_equal; [f_equal |]
      end;
  repeat match goal with
         | H : (_, _, _) = (_, _, _) |- _ => inversion H; clear H; subst
         end;
  lia.

Lemma ltb_false_geb (a b : float) :
  not_nan a -> not_nan b -> PyFloat.ltb a b = false -> geb a b = true.
Proof. intros Ha Hb H. float_order. Qed.

Lemma ltb_true_geb (a b : float) :
  not_nan a -> not_nan b -> PyFloat.ltb a b = true -> geb b a = true.
Proof. intros Ha Hb H. float_order. Qed.

Lemma geb_refl (a : float) : not_nan a -> geb a a = true.
Proof. intros Ha. float_order. Qed.

Lemma geb_trans (a b c : float) :
  not_nan a -> not_nan b -> not_nan c ->
  geb a b = true -> geb b c = true -> geb a c = true.
Proof. intros Ha Hb Hc H1 H2. float_order. Qed.

Lemma geb_ltb_false (a b : float) :
  not_nan a -> not_nan b -> geb a b = true -> PyFloat.ltb a b = false.
Proof. intros Ha Hb H. float_order. Qed.

Lemma ltb_geb_trans (a b c : float) :
  not_nan a -> not_nan b -> not_nan c ->
  PyFloat.ltb a b = true -> geb c b = true -> PyFloat.ltb a c = true.
Proof. intros Ha Hb Hc H1 H2. float_order. Qed.

Lemma geb_not_ltb_eqb (a b : float) :
  not_nan a -> not_nan b ->
  geb a b = true -> PyFloat.ltb b a = false -> PyFloat.eqb a b = true.
Proof. intros Ha Hb H1 H2. float_order. Qed.

Lemma eqb_ltb_compat (a b u : float) :
  not_nan u -> PyFloat.eqb a b = true -> PyFloat.ltb a u = PyFloat.ltb b u.
Proof.
  intros Hu H.
  destruct (eqb_true_not_nan _ _ H) as [Ha Hb].
  destruct (PyFloat.ltb a u) eqn:E1; destruct (PyFloat.ltb b u) eqn:E2;
    try reflexivity; exfalso; float_order.
Qed.

Lemma eqb_ltb_conflict (x y t : float) :
  PyFloat.eqb x t = true -> PyFloat.eqb y t = true ->
  PyFloat.ltb x y = true -> False.
Proof. intros H1 H2 H3. float_order. Qed.

(** ** The sort: order and stability *)

Lemma insert_desc_sorted (x : record) (l : list record) :
  not_nan (Total x) -> numbers l ->
  StronglySorted ge_total l -> StronglySorted ge_total (insert_desc x l).
Proof.
  intros Hx. induction l as [| y l IH]; simpl; intros Hl Hsorted.
  - constructor; constructor.
  - assert (Hy : not_nan (Total y)) by (apply Hl; left; reflexivity).
    assert (Hl' : numbers l) by (intros r Hr; apply Hl; right; exact Hr).
    inversion Hsorted as [| y' l' Hsorted' Hall]; subst.
    destruct (PyFloat.ltb (Total x) (Total y)) eqn:Hlt.
    + constructor; [apply IH; assumption |].
      apply (Permutation_Forall (Permutation_sym (insert_desc_perm x l))).
      constructor; [| exact Hall].
      apply ltb_true_geb; assumption.
    + constructor; [exact Hsorted |].
      assert (Hxy : ge_total x y) by (apply ltb_false_geb; assumption).
      constructor; [exact Hxy |].
      rewrite Forall_forall in Hall |- *. intros z Hz.
      apply (geb_trans (Total x) (Total y) (Total z)); try assumption.
      * apply Hl'. exact Hz.
      * apply Hall. exact Hz.
Qed.

Lemma sort_desc_sorted (l : list record) :
  numbers l -> StronglySorted ge_total (sort_desc l).
Proof.
  induction l as [| x l IH]; simpl; intros Hl; [constructor |].
  apply insert_desc_sorted.
  - apply Hl. left. reflexivity.
  - intros r Hr. apply Hl. right.
    apply (Permutation_in r (sort_desc_perm l)). exact Hr.
  - apply IH. intros r Hr. apply Hl. right. exact Hr.
Qed.

Lemma with_total_insert (t : float) (x : record) (l : list record) :
  with_total t (insert_desc x l) = with_total t (x :: l).
Proof.
  unfold with_total. induction l as [| y l IH]; simpl; [reflexivity |].
  destruct (PyFloat.ltb (Total x) (Total y)) eqn:Hlt; [| reflexivity].
  simpl. rewrite IH. simpl.
  destruct (PyFloat.eqb (Total x) t) eqn:Ex;
    destruct (PyFloat.eqb (Total y) t) eqn:Ey; try reflexivity.
  destruct (eqb_ltb_conflict _ _ _ Ex Ey Hlt).
Qed.

(** The sort keeps the order of the records of any one total. *)
Lemma with_total_sort (t : float) (l : list record) :
  with_total t (sort_desc l) = with_total t l.
Proof.
  induction l as [| x l IH]; simpl; [reflexivity |].
  rewrite with_total_insert. unfold with_total in *. simpl.
  rewrite IH. reflexivity.
Qed.

Lemma clear_rank_none (r : record) : Rank r = None -> clear_rank r = r.
Proof. destruct r; simpl; intros ->; reflexivity. Qed.

Lemma map_clear_rank_none (l : list record) :
  (forall r, In r l -> Rank r = None) -> map clear_rank l = l.
Proof.
  induction l as [| r l IH]; simpl; intros H; [reflexivity |].
  rewrite clear_rank_none by (apply H; left; reflexivity).
  rewrite IH by (intros r' Hr'; apply H; right; exact Hr').
  reflexivity.
Qed.

Lemma built_without_rank (manual_overall : json) (its : list (string * json))
    (built : list record) :
  build_records manual_overall its = Ok built ->
  forall r, In r built -> Rank r = None.
Proof.
  intros Hbuilt r Hr.
  destruct (Forall2_in_right _ _ _ _ (build_records_ok _ _ _ Hbuilt) Hr)
    as [[k core] [_ Hr0]].
  apply build_record_ok in Hr0.
  destruct Hr0 as [scores [fields [_ [_ [_ [_ [_ [Hrank _]]]]]]]].
  exact Hrank.
Qed.

Lemma totals_clear_rank (l : list record) :
  totals (map clear_rank l) = totals l.
Proof.
  unfold totals. rewrite map_map. apply map_ext. intros r. reflexivity.
Qed.

Lemma totals_assign_ranks (l : list record) :
  totals (assign_ranks l) = totals l.
Proof.
  rewrite <- (totals_clear_rank (assign_ranks l)), assign_ranks_clear.
  apply totals_clear_rank.
Qed.

Lemma sorted_descending (l : list record) :
  StronglySorted ge_total l -> descending (totals l).
Proof.
  unfold descending, totals.
  induction 1 as [| x l Hsorted IH Hall]; simpl; intros i Hi; [lia |].
  destruct i as [| i].
  - destruct l as [| y l]; simpl in *; [lia |].
    inversion Hall; subst. assumption.
  - apply IH. lia.
Qed.

Lemma numbers_output (built : list record) :
  numbers (assign_ranks (sort_desc built)) -> numbers built.
Proof.
  intros H r0 Hr0.
  destruct (built_in_output built r0 Hr0) as [r [Hr Hclear]].
  apply clear_rank_fields in Hclear.
  destruct Hclear as [_ [_ [_ [_ [_ Et]]]]].
  rewrite <- Et. apply H. exact Hr.
Qed.

(** C7, for totals that are numbers: the output is in descending order
    of [Total], each total at least the next one, and the records of
    equal total stand in the order in which the loop over the identities
    built them. *)
Theorem sorted_and_stable (ids : list (string * json)) (manual_overall : json)
    (built recs : list record) :
  build_records manual_overall ids = Ok built ->
  merge (JDict ids) manual_overall = Ok recs ->
  numbers recs ->
  descending (totals recs) /\ stable built recs.
Proof.
  intros Hbuilt Hmerge Hnum.
  unfold merge in Hmerge. simpl in Hmerge. rewrite Hbuilt in Hmerge.
  simpl in Hmerge. inversion Hmerge; subst recs; clear Hmerge.
  apply numbers_output in Hnum. split.
  - rewrite totals_assign_ranks. apply sorted_descending.
    apply sort_desc_sorted. exact Hnum.
  - intros t. rewrite assign_ranks_clear.
    rewrite map_clear_rank_none.
    + apply with_total_sort.
    + intros r Hr. apply (built_without_rank _ _ _ Hbuilt).
      apply (Permutation_in r (sort_desc_perm built)). exact Hr.
Qed.

Lemma sample_numbers : numbers [sample_record; absent_record].
Proof.
  intros r [<- | [<- | []]]; reflexivity.
Defined.

Lemma sorted_and_stable_witness :
  descending (totals [sample_record; absent_record])
  /\ stable (map clear_rank [sample_record; absent_record])
       [sample_record; absent_record].
Proof.
  apply (sorted_and_stable two_students overall_value).
  - vm_compute. reflexivity.
  - vm_compute. reflexivity.
  - exact sample_numbers.
Defined.

(** A NaN total is neither at least nor at most any total: no order of
    two or more records that has one is descending. *)
Lemma nan_never_descending (ts : list float) :
  2 <= List.length ts -> In PyFloat.nan ts -> ~ descending ts.
Proof.
  intros Hlen Hin Hdesc.
  apply (In_nth ts PyFloat.nan PyFloat.zero) in Hin.
  destruct Hin as [i [Hi Hnan]].
  destruct (Nat.eq_dec (S i) (List.length ts)) as [Hlast | Hmid].
  - destruct i as [| i]; [lia |].
    specialize (Hdesc i Hi). rewrite Hnan in Hdesc.
    unfold geb, PyFloat.leb, SFleb in Hdesc. simpl in Hdesc. discriminate Hdesc.
  - assert (Hi' : S i < List.length ts) by lia.
    specialize (Hdesc i Hi'). rewrite Hnan in Hdesc.
    unfold geb, PyFloat.leb, SFleb, SFcompare in Hdesc.
    destruct (nth (S i) ts PyFloat.zero); discriminate Hdesc.
Qed.

(** C7, as the specification words it, fails: with a NaN score the
    output has a NaN total, and the pair it stands in is not in
    descending order. *)
Lemma nan_total_not_descending :
  merge (JDict nan_students) nan_scores = Ok nan_output
  /\ ~ descending (totals nan_output).
Proof.
  split; [vm_compute; reflexivity |].
  apply nan_never_descending; simpl; [lia | left; reflexivity].
Qed.

(** ** Ranks *)

(** The loop, entered at index [i] with [done] behind it: the rank it
    gives to the head of [todo], and the rule between neighbours. *)
Lemma rank_loop_adjacent (todo : list record) :
  forall done i current_rank,
    List.length done = i ->
    let out := rank_loop (done ++ todo) i current_rank todo in
    (forall r', nth_error out 0 = Some r' ->
       exists r,
         nth_error todo 0 = Some r
         /\ r' = set_rank r
                   (if (0 <? i)%nat
                       && PyFloat.ltb (Total r) (Total (nth (i - 1) (done ++ todo) r))
                    then i + 1 else current_rank))
    /\ (forall j r r',
          nth_error out j = Some r -> nth_error out (S j) = Some r' ->
          Rank r' = if PyFloat.ltb (Total r') (Total r)
                    then Some (i + j + 2) else Rank r).
Proof.
  induction todo as [| r0 todo IH]; intros done i current_rank Hlen out.
  - subst out. simpl. split.
    + intros r' H. discriminate H.
    + intros j r r' H. destruct j; discriminate H.
  - set (rank0 := if (0 <? i)%nat
                     && PyFloat.ltb (Total r0)
                          (Total (nth (i - 1) (done ++ r0 :: todo) r0))
                  then i + 1 else current_rank).
    assert (Hout : out
                   = set_rank r0 rank0
                     :: rank_loop ((done ++ [r0]) ++ todo) (S i) rank0 todo).
    { subst out rank0. simpl. rewrite <- app_assoc. reflexivity. }
    rewrite Hout. clear Hout out.
    assert (Hlen' : List.length (done ++ [r0]) = S i).
    { rewrite length_app. simpl. lia. }
    destruct (IH (done ++ [r0]) (S i) rank0 Hlen') as [Hhead Hnext].
    split.
    + intros r' H. simpl in H. inversion H; subst r'.
      exists r0. split; reflexivity.
    + intros j r r' Hr Hr'. destruct j as [| j].
      * simpl in Hr, Hr'. inversion Hr; subst r; clear Hr.
        destruct (Hhead r' Hr') as [r1 [_ ->]].
        simpl. rewrite Nat.sub_0_r.
        rewrite <- app_assoc. simpl.
        rewrite app_nth2 by lia. rewrite Hlen, Nat.sub_diag. simpl.
        rewrite Nat.add_0_r.
        destruct (PyFloat.ltb (Total r1) (Total r0)); f_equal; lia.
      * simpl in Hr, Hr'.
        rewrite (Hnext j r r' Hr Hr').
        destruct (PyFloat.ltb (Total r') (Total r)); [f_equal; lia | reflexivity].
Qed.

(** The ranks of the loop follow the rule of adjacent ranks, whatever the
    order of the records. *)
Lemma assign_ranks_adjacent (records : list record) :
  adjacent_ranks (assign_ranks records).
Proof.
  destruct (rank_loop_adjacent records [] 0 1 eq_refl) as [Hhead Hnext].
  simpl in Hhead, Hnext. unfold adjacent_ranks, assign_ranks. split.
  - intros r' H. destruct (Hhead r' H) as [r [_ ->]]. reflexivity.
  - intros i r r' Hr Hr'. rewrite (Hnext i r r' Hr Hr').
    destruct (PyFloat.ltb (Total r') (Total r)); [f_equal; lia | reflexivity].
Qed.

Lemma count_greater_none (b : float) (ts : list float) :
  Forall (fun u => PyFloat.ltb b u = false) ts -> count_greater b ts = 0.
Proof.
  unfold count_greater. induction 1 as [| u ts Hu _ IH]; simpl; [reflexivity |].
  rewrite Hu. exact IH.
Qed.

(** In a descending list of numbers, a total that all totals before it
    exceed has as many greater totals as it has totals before it. *)
Lemma count_greater_sorted (ts : list float) :
  StronglySorted ge_float ts -> Forall not_nan ts ->
  forall j b,
    nth_error ts j = Some b ->
    (forall i u, i < j -> nth_error ts i = Some u -> PyFloat.ltb b u = true) ->
    count_greater b ts = j.
Proof.
  induction 1 as [| a ts Hsorted IH Hall]; intros Hnum j b Hj Hbefore.
  - destruct j; discriminate Hj.
  - inversion Hnum as [| a' ts' Ha Hts]; subst.
    destruct j as [| j].
    + simpl in Hj. inversion Hj; subst b.
      apply count_greater_none. constructor.
      * apply geb_ltb_false; try assumption. apply geb_refl. exact Ha.
      * rewrite Forall_forall in Hall, Hts |- *. intros u Hu.
        apply geb_ltb_false; [assumption | apply Hts; exact Hu |].
        apply Hall. exact Hu.
    + simpl in Hj. unfold count_greater. simpl.
      rewrite (Hbefore 0 a (Nat.lt_0_succ j) eq_refl). simpl. f_equal.
      apply (IH Hts j b Hj).
      intros i u Hi Hu. apply (Hbefore (S i) u); [lia | exact Hu].
Qed.

Lemma sorted_nth_ge (ts : list float) :
  StronglySorted ge_float ts ->
  forall i j u v,
    i < j -> nth_error ts i = Some u -> nth_error ts j = Some v ->
    geb u v = true.
Proof.
  induction 1 as [| a ts Hsorted IH Hall]; intros i j u v Hij Hi Hj.
  - destruct i; discriminate Hi.
  - destruct j as [| j]; [lia |]. simpl in Hj.
    destruct i as [| i].
    + simpl in Hi. inversion Hi; subst u.
      rewrite Forall_forall in Hall. apply Hall.
      apply (nth_error_In _ _ Hj).
    + simpl in Hi. apply (IH i j u v); [lia | assumption | assumption].
Qed.

Lemma sorted_totals (l : list record) :
  StronglySorted ge_total l -> StronglySorted ge_float (totals l).
Proof.
  unfold totals. induction 1 as [| r l Hsorted IH Hall]; simpl; constructor.
  - exact IH.
  - rewrite Forall_forall in Hall |- *. intros u Hu.
    apply in_map_iff in Hu. destruct Hu as [r' [<- Hr']].
    apply Hall. exact Hr'.
Qed.

Lemma numbers_totals (out : list record) :
  numbers out -> Forall not_nan (totals out).
Proof.
  intros H. unfold totals. rewrite Forall_forall. intros u Hu.
  apply in_map_iff in Hu. destruct Hu as [r [<- Hr]]. apply H. exact Hr.
Qed.

Lemma nth_error_total (out : list record) (j : nat) (r : record) :
  nth_error out j = Some r -> nth_error (totals out) j = Some (Total r).
Proof. intros H. unfold totals. apply map_nth_error. exact H. Qed.

Lemma nth_error_before (out : list record) (j : nat) (r : record) :
  nth_error out (S j) = Some r -> exists rp, nth_error out j = Some rp.
Proof.
  intros H.
  assert (Hlen : S j < List.length out).
  { apply nth_error_Some. rewrite H. discriminate. }
  destruct (nth_error out j) as [rp |] eqn:E; [exists rp; reflexivity |].
  apply nth_error_None in E. lia.
Qed.

(** On a descending list of numbers the rule of adjacent ranks gives
    every record the rank [1 +] the number of greater totals. *)
Lemma adjacent_ranks_counted (out : list record) :
  adjacent_ranks out ->
  StronglySorted ge_float (totals out) ->
  numbers out ->
  forall j r,
    nth_error out j = Some r ->
    Rank r = Some (1 + count_greater (Total r) (totals out)).
Proof.
  intros [Hfirst Hnext] Hsorted Hnum.
  pose proof (numbers_totals out Hnum) as Hnums.
  induction j as [| j IH]; intros r Hr.
  - rewrite (Hfirst r Hr). f_equal.
    rewrite (count_greater_sorted (totals out) Hsorted Hnums 0 (Total r));
      [reflexivity | apply nth_error_total; exact Hr |].
    intros i u Hi. lia.
  - destruct (nth_error_before out j r Hr) as [rp Hrp].
    assert (Hge : geb (Total rp) (Total r) = true).
    { apply (sorted_nth_ge (totals out) Hsorted j (S j));
        [lia | apply nth_error_total; exact Hrp | apply nth_error_total; exact Hr]. }
    assert (Hnr : not_nan (Total r)).
    { apply Hnum. apply (nth_error_In _ _ Hr). }
    assert (Hnp : not_nan (Total rp)).
    { apply Hnum. apply (nth_error_In _ _ Hrp). }
    rewrite (Hnext j rp r Hrp Hr).
    destruct (PyFloat.ltb (Total r) (Total rp)) eqn:Hlt.
    + f_equal.
      rewrite (count_greater_sorted (totals out) Hsorted Hnums (S j) (Total r));
        [lia | apply nth_error_total; exact Hr |].
      intros i u Hi Hu.
      assert (Hnu : not_nan u).
      { rewrite Forall_forall in Hnums. apply Hnums.
        apply (nth_error_In _ _ Hu). }
      apply (ltb_geb_trans (Total r) (Total rp) u); try assumption.
      destruct (Nat.eq_dec i j) as [-> | Hne].
      * rewrite (nth_error_total out j rp Hrp) in Hu. inversion Hu; subst u.
        apply geb_refl. exact Hnp.
      * apply (sorted_nth_ge (totals out) Hsorted i j);
          [lia | exact Hu | apply nth_error_total; exact Hrp].
    + rewrite (IH rp Hrp). f_equal. f_equal.
      assert (Heq : PyFloat.eqb (Total rp) (Total r) = true).
      { apply geb_not_ltb_eqb; assumption. }
      unfold count_greater. f_equal. apply filter_ext_in.
      intros u Hu. apply eqb_ltb_compat; [| exact Heq].
      rewrite Forall_forall in Hnums. apply Hnums. exact Hu.
Qed.

Lemma sorted_output (built : list record) :
  numbers built ->
  StronglySorted ge_float (totals (assign_ranks (sort_desc built))).
Proof.
  intros Hnum. rewrite totals_assign_ranks.
  apply sorted_totals. apply sort_desc_sorted. exact Hnum.
Qed.

(** C6, with the counted form kept to totals that are numbers: the ranks
    of the output follow the rule of adjacent ranks (rank 1 first; then
    the 1-based position when the total is strictly less than the one
    before, and the rank before otherwise); when no total is NaN each
    rank is 1 plus the number of records with a strictly greater total;
    totals 90, 90 and 80 get the ranks 1, 1 and 3. *)
Theorem competition_ranks (ids : list (string * json)) (manual_overall : json)
    (recs : list record) :
  merge (JDict ids) manual_overall = Ok recs ->
  adjacent_ranks recs
  /\ (numbers recs -> counted_ranks recs)
  /\ exists tied,
       merge (JDict tie_students) tie_scores = Ok tied
       /\ totals tied = [ninety; ninety; eighty]
       /\ map Rank tied = [Some 1; Some 1; Some 3].
Proof.
  intros Hmerge.
  apply merge_ok in Hmerge. destruct Hmerge as [its [built [_ [_ ->]]]].
  split; [apply assign_ranks_adjacent |]. split.
  - intros Hnum r Hr.
    apply In_nth_error in Hr. destruct Hr as [j Hj].
    apply (adjacent_ranks_counted _ (assign_ranks_adjacent _)) with j;
      [| exact Hnum | exact Hj].
    apply sorted_output. apply numbers_output. exact Hnum.
  - eexists. split; [vm_compute; reflexivity |].
    split; vm_compute; reflexivity.
Qed.

Lemma competition_ranks_witness :
  adjacent_ranks [sample_record; absent_record]
  /\ counted_ranks [sample_record; absent_record].
Proof.
  destruct (competition_ranks two_students overall_value
              [sample_record; absent_record]) as [Hadj [Hcount _]].
  - vm_compute. reflexivity.
  - split; [exact Hadj | exact (Hcount sample_numbers)].
Defined.

(** C6, as the specification words it, fails: with totals 5, NaN and 3
    the record of total 3 keeps rank 1, with one total strictly above
    it. *)
Lemma nan_total_miscounts :
  merge (JDict nan_between_students) nan_between_scores = Ok nan_between_output
  /\ ~ counted_ranks nan_between_output.
Proof.
  split; [vm_compute; reflexivity |].
  intros H.
  specialize (H (set_rank (unranked "c" (PyFloat.lit (3 * 2 ^ 51) (-51))) 1)).
  simpl in H.
  assert (E : Some 1 = Some 2); [| discriminate E].
  apply H. right. right. left. reflexivity.
Qed.

Lemma permutation_of_three {A : Type} (a b c : A) (l : list A) :
  Permutation l [a; b; c] ->
  l = [a; b; c] \/ l = [a; c; b] \/ l = [b; a; c]
  \/ l = [b; c; a] \/ l = [c; a; b] \/ l = [c; b; a].
Proof.
  intros H.
  assert (Hin : In a l).
  { apply (Permutation_in a (Permutation_sym H)). left. reflexivity. }
  apply in_split in Hin. destruct Hin as [l1 [l2 ->]].
  apply Permutation_sym, Permutation_cons_app_inv in H.
  apply Permutation_length_2_inv in H.
  destruct l1 as [| x [| y [| z l1]]]; simpl in *;
    destruct H as [H | H]; inversion H; subst; auto 10;
    try (destruct l1; discriminate).
Qed.

(** The counterexample to the counted form does not depend on the order
    the sort leaves the NaN in: each of the six orders of the three
    records gets ranks that miss the count. *)
Lemma any_order_miscounts (l : list record) :
  Permutation l nan_between_built -> ~ counted_ranks (assign_ranks l).
Proof.
  intros Hperm H.
  apply permutation_of_three in Hperm.
  destruct Hperm as [-> | [-> | [-> | [-> | [-> | ->]]]]];
    pose proof (H _ (or_introl eq_refl)) as H1;
    pose proof (H _ (or_intror (or_introl eq_refl))) as H2;
    pose proof (H _ (or_intror (or_intror (or_introl eq_refl)))) as H3;
    vm_compute in H1, H2, H3; congruence.
Qed.

(** ** More on [clean_score] and on the scan of braces *)

(** X15: the inputs on which [clean_score] raises: an integer beyond the
    doubles, and a string whose stripped value is no absence marker and
    starts with a run of digits and points that is not a float literal. *)
Lemma raising_inputs (value : json) :
  raises (clean_score value)
  <-> match value with
      | JInt n => PyFloat.of_int n = None
      | JStr s =>
          let run := numeric_match (strip (chars s)) in
          is_absence_marker (strip (chars s)) = false
          /\ run <> []
          /\ (2 <= count_dots run \/ count_digits run = 0)
      | _ => False
      end.
Proof.
  unfold raises. destruct value as [| b | n | f | s | l | its]; simpl;
    try (split; [intros [e H]; discriminate H | intros []]).
  - split; [| intros []].
    intros [e H]. destruct b; vm_compute in H; discriminate H.
  - unfold float_of_int. destruct (PyFloat.of_int n).
    + split; [intros [e H]; discriminate H | discriminate].
    + split; [reflexivity | intros _; eexists; reflexivity].
  - destruct (is_absence_marker (strip (chars s))).
    { split; [intros [e H]; discriminate H | intros [H _]; discriminate H]. }
    destruct (numeric_match (strip (chars s))) as [| c run].
    { split; [intros [e H]; discriminate H | intros [_ [H _]]; contradiction]. }
    unfold float_of_run.
    destruct ((count_dots (c :: run) <=? 1)%nat
              && (1 <=? count_digits (c :: run))%nat) eqn:E.
    + apply andb_true_iff in E. destruct E as [E1 E2].
      apply Nat.leb_le in E1. apply Nat.leb_le in E2.
      split; [intros [e H]; discriminate H | intros [_ [_ H]]; lia].
    + apply andb_false_iff in E.
      split; [| intros _; eexists; reflexivity].
      intros _. split; [reflexivity |]. split; [discriminate |].
      destruct E as [E | E]; apply Nat.leb_gt in E; lia.
Qed.

Lemma scan_some (s : list ascii) :
  forall brace_count i end_pos,
    scan brace_count i s = Some end_pos ->
    exists k,
      end_pos = i + S k
      /\ k < List.length s
      /\ nth k s lbrace = rbrace
      /\ (brace_count + depth (firstn (S k) s) = 0)%Z
      /\ forall k', k' < k -> nth k' s lbrace = rbrace ->
           (brace_count + depth (firstn (S k') s) <> 0)%Z.
Proof.
  induction s as [| c s IH]; intros brace_count i end_pos H; [discriminate H |].
  cbn [scan] in H.
  assert (Hstep : forall n,
             scan n (S i) s = Some end_pos ->
             (n = brace_count
                  + (if Ascii.eqb c lbrace then 1
                     else if Ascii.eqb c rbrace then -1 else 0))%Z ->
             (c = rbrace -> n <> 0%Z) ->
             exists k,
               end_pos = i + S k
               /\ k < List.length (c :: s)
               /\ nth k (c :: s) lbrace = rbrace
               /\ (brace_count + depth (firstn (S k) (c :: s)) = 0)%Z
               /\ forall k', k' < k -> nth k' (c :: s) lbrace = rbrace ->
                    (brace_count + depth (firstn (S k') (c :: s)) <> 0)%Z).
  { intros n Hscan Hn Hc.
    destruct (IH n (S i) end_pos Hscan) as [k [-> [Hk [Hnth [Hzero Hleast]]]]].
    exists (S k). split; [lia |]. split; [simpl; lia |].
    split; [exact Hnth |]. split.
    - cbn [firstn depth] in Hzero |- *. cbn [firstn depth]. lia.
    - intros k' Hk' Hnth'. destruct k' as [| k'].
      + simpl in Hnth'. specialize (Hc Hnth').
        cbn [firstn depth]. lia.
      + specialize (Hleast k' (proj2 (Nat.succ_lt_mono k' k) Hk') Hnth').
        cbn [firstn depth] in Hleast |- *. lia. }
  destruct (Ascii.eqb c lbrace) eqn:Hl.
  - apply (Hstep (brace_count + 1)%Z H); [lia |].
    intros ->. discriminate Hl.
  - destruct (Ascii.eqb c rbrace) eqn:Hr.
    + destruct (brace_count - 1 =? 0)%Z eqn:Hz.
      * inversion H; subst end_pos. apply Z.eqb_eq in Hz.
        apply Ascii.eqb_eq in Hr. subst c.
        exists 0. split; [lia |]. split; [simpl; lia |].
        split; [reflexivity |]. split.
        -- cbn [firstn depth]. simpl. lia.
        -- intros k' Hk'. lia.
      * apply Z.eqb_neq in Hz.
        apply (Hstep (brace_count - 1)%Z H); [lia |].
        intros _. exact Hz.
    + apply (Hstep brace_count H); [lia |].
      intros ->. discriminate Hr.
Qed.

(** When the loop leaves through [break], the substring handed to the
    decoder ends with a closing brace and has as many closing braces as
    opening ones. *)
Lemma json_str_balanced (content : list ascii) (start_pos end_pos : nat) :
  scan 0 start_pos (skipn start_pos content) = Some end_pos ->
  depth (json_str content start_pos) = 0%Z
  /\ last (json_str content start_pos) lbrace = rbrace.
Proof.
  intros H. unfold json_str, find_end, slice. rewrite H.
  destruct (scan_some _ _ _ _ H) as [k [-> [Hk [Hnth [Hzero _]]]]].
  replace (start_pos + S k - start_pos) with (S k) by lia.
  split; [lia |].
  set (s := skipn start_pos content) in *.
  rewrite <- Hnth. clear Hzero Hnth H.
  revert k Hk. induction s as [| c s IH]; intros k Hk; [simpl in Hk; lia |].
  destruct k as [| k]; [reflexivity |].
  simpl in Hk.
  change (firstn (S (S k)) (c :: s)) with (c :: firstn (S k) s).
  destruct s as [| c' s]; [simpl in Hk; lia |].
  change (firstn (S k) (c' :: s)) with (c' :: firstn k s).
  change (last (c :: c' :: firstn k s) lbrace) with (last (c' :: firstn k s) lbrace).
  change (nth (S k) (c :: c' :: s) lbrace) with (nth k (c' :: s) lbrace).
  apply (IH k). lia.
Qed.

(** The two names the parser asks for stand for themselves in the
    pattern. *)
Lemma callers_plain :
  plain_name (chars "studentCore") /\ plain_name (chars "manualOverall").
Proof. split; reflexivity. Qed.

(** A match of the pattern holds an occurrence in the sense of the
    specification: the code asks for more, never for less. *)
Lemma matches_at_spec_occurrence (content var_name : list ascii) (p b : nat) :
  matches_at content var_name p b ->
  exists q, spec_occurrence content var_name q.
Proof.
  intros [pre [ws1 [ws2 [ws3 [rest [Hs [_ [_ [_ [H2 [H3 _]]]]]]]]]]].
  exists (List.length (pre ++ const ++ ws1)).
  exists (pre ++ const ++ ws1), ws2, ws3, rest.
  split; [| split; [reflexivity | split; assumption]].
  rewrite Hs. repeat rewrite <- app_assoc. reflexivity.
Qed.

(** ** The sort is determined

    [list.sort] is embedded as an insertion sort.  On totals that are
    numbers nothing depends on that choice: two descending arrangements
    that keep the same order among the records of each total are the
    same list, so every stable sort returns [sort_desc]. *)

Lemma eqb_refl (a : float) : not_nan a -> PyFloat.eqb a a = true.
Proof. intros Ha. apply eqb_spec; [exact Ha | exact Ha | reflexivity]. Qed.

Lemma geb_antisym_eqb (a b : float) :
  not_nan a -> not_nan b ->
  geb a b = true -> geb b a = true -> PyFloat.eqb a b = true.
Proof. intros Ha Hb H1 H2. float_order. Qed.

Lemma with_total_head (t : float) (x : record) (l : list record) :
  with_total t (x :: l)
  = if PyFloat.eqb (Total x) t then x :: with_total t l else with_total t l.
Proof. reflexivity. Qed.

Lemma with_total_in (t : float) (r : record) (l : list record) :
  In r (with_total t l) <-> In r l /\ PyFloat.eqb (Total r) t = true.
Proof. unfold with_total. apply filter_In. Qed.

Lemma stable_sort_unique (l1 : list record) :
  forall l2,
    numbers l1 -> numbers l2 ->
    StronglySorted ge_total l1 -> StronglySorted ge_total l2 ->
    (forall t, with_total t l1 = with_total t l2) ->
    l1 = l2.
Proof.
  induction l1 as [| x l1 IH]; intros l2 Hn1 Hn2 Hs1 Hs2 Hsame.
  - destruct l2 as [| y l2]; [reflexivity |].
    specialize (Hsame (Total y)). rewrite with_total_head in Hsame.
    rewrite eqb_refl in Hsame by (apply Hn2; left; reflexivity).
    discriminate Hsame.
  - assert (Hx : not_nan (Total x)) by (apply Hn1; left; reflexivity).
    destruct l2 as [| y l2].
    { specialize (Hsame (Total x)). rewrite with_total_head in Hsame.
      rewrite eqb_refl in Hsame by exact Hx. discriminate Hsame. }
    assert (Hy : not_nan (Total y)) by (apply Hn2; left; reflexivity).
    inversion Hs1 as [| x' l1' Hs1' Hall1]; subst.
    inversion Hs2 as [| y' l2' Hs2' Hall2]; subst.
    rewrite Forall_forall in Hall1, Hall2.
    assert (Hyx : ge_total x y).
    { assert (Hin : In y (with_total (Total y) (x :: l1))).
      { rewrite Hsame. rewrite with_total_head, eqb_refl by exact Hy.
        left. reflexivity. }
      apply with_total_in in Hin. destruct Hin as [[-> | Hin] _].
      - apply geb_refl. exact Hy.
      - apply Hall1. exact Hin. }
    assert (Hxy : ge_total y x).
    { assert (Hin : In x (with_total (Total x) (y :: l2))).
      { rewrite <- Hsame. rewrite with_total_head, eqb_refl by exact Hx.
        left. reflexivity. }
      apply with_total_in in Hin. destruct Hin as [[-> | Hin] _].
      - apply geb_refl. exact Hx.
      - apply Hall2. exact Hin. }
    assert (Heq : PyFloat.eqb (Total y) (Total x) = true).
    { apply geb_antisym_eqb; assumption. }
    assert (Hhead : x = y).
    { specialize (Hsame (Total x)). rewrite !with_total_head in Hsame.
      rewrite eqb_refl in Hsame by exact Hx. rewrite Heq in Hsame.
      inversion Hsame. reflexivity. }
    subst y. f_equal.
    apply IH; try assumption.
    + intros r Hr. apply Hn1. right. exact Hr.
    + intros r Hr. apply Hn2. right. exact Hr.
    + intros t. specialize (Hsame t). rewrite !with_total_head in Hsame.
      destruct (PyFloat.eqb (Total x) t); [inversion Hsame; reflexivity | exact Hsame].
Qed.

(** Every arrangement of [l] that is descending and stable is the one
    the embedding computes. *)
Lemma sort_desc_determined (l sorted : list record) :
  numbers l -> numbers sorted ->
  StronglySorted ge_total sorted ->
  (forall t, with_total t sorted = with_total t l) ->
  sorted = sort_desc l.
Proof.
  intros Hl Hsorted Hs Hstable.
  apply stable_sort_unique; try assumption.
  - intros r Hr. apply Hl.
    apply (Permutation_in r (sort_desc_perm l)). exact Hr.
  - apply sort_desc_sorted. exact Hl.
  - intros t. rewrite Hstable. symmetry. apply with_total_sort.
Qed.

(** With the comparison of floats in place of identity, a total equals
    the sum it was computed as exactly when it is not NaN. *)
Lemma total_eqb_sum (r : record) :
  Total r
  = PyFloat.add (PyFloat.add (OverallPseudocode r) (OverallCoding r))
      (OverallDailyTest r) ->
  (PyFloat.eqb (Total r)
     (PyFloat.add (PyFloat.add (OverallPseudocode r) (OverallCoding r))
        (OverallDailyTest r)) = true
   <-> not_nan (Total r)).
Proof.
  intros E. rewrite <- E. split.
  - intros H. apply (eqb_true_not_nan _ _ H).
  - apply eqb_refl.
Qed.

(** A NaN total is within reach of numbers: the two infinities, which
    [json.loads] returns for 1e999 and -1e999, add up to NaN. *)
Lemma infinities_add_to_nan : PyFloat.add PyFloat.inf PyFloat.neg_inf = PyFloat.nan.
Proof. reflexivity. Qed.

(** * Further properties of the code *)

(** ** Signs of rounded values *)

Lemma shr_1_nonneg (mrs : shr_record) :
  (0 <= shr_m mrs)%Z -> (0 <= shr_m (shr_1 mrs))%Z.
Proof.
  destruct mrs as [m r s]. simpl.
  destruct m as [| p | p]; simpl; intros H; try lia;
    destruct p; simpl; lia.
Qed.

Lemma iter_shr_1_nonneg (p : positive) :
  forall mrs, (0 <= shr_m mrs)%Z -> (0 <= shr_m (iter_pos shr_1 p mrs))%Z.
Proof.
  induction p as [p IH | p IH |]; intros mrs H; simpl.
  - apply IH, IH, shr_1_nonneg, H.
  - apply IH, IH, H.
  - apply shr_1_nonneg, H.
Qed.

Lemma shr_fexp_nonneg (m e : Z) (l : location) :
  (0 <= m)%Z ->
  (0 <= shr_m (fst (shr_fexp PyFloat.prec PyFloat.emax m e l)))%Z.
Proof.
  intros H. unfold shr_fexp, shr.
  assert (H0 : (0 <= shr_m (shr_record_of_loc m l))%Z).
  { destruct l as [| []]; simpl; exact H. }
  destruct (fexp PyFloat.prec PyFloat.emax (Zdigits2 m + e) - e)%Z; simpl;
    try exact H0.
  apply iter_shr_1_nonneg. exact H0.
Qed.

Lemma round_nearest_even_nonneg (m : Z) (l : location) :
  (0 <= m)%Z -> (0 <= round_nearest_even m l)%Z.
Proof.
  intros H. unfold round_nearest_even.
  destruct l as [| []]; try lia. destruct (Z.even m); lia.
Qed.

(** Rounding a magnitude gives a zero, a finite float or an infinity of
    the sign asked for, never NaN. *)
Lemma binary_round_aux_sign (sx : bool) (mx ex : Z) (lx : location) :
  (0 <= mx)%Z ->
  has_sign sx (binary_round_aux PyFloat.prec PyFloat.emax sx mx ex lx).
Proof.
  intros H. unfold binary_round_aux.
  pose proof (shr_fexp_nonneg mx ex lx H) as H1.
  destruct (shr_fexp PyFloat.prec PyFloat.emax mx ex lx) as [mrs' e'].
  simpl in H1.
  pose proof (shr_fexp_nonneg
                (round_nearest_even (shr_m mrs') (loc_of_shr_record mrs'))
                e' loc_Exact (round_nearest_even_nonneg _ _ H1)) as H2.
  destruct (shr_fexp PyFloat.prec PyFloat.emax
              (round_nearest_even (shr_m mrs') (loc_of_shr_record mrs'))
              e' loc_Exact) as [mrs'' e''].
  simpl in H2.
  destruct (shr_m mrs'') as [| m | m]; simpl; [exact I | | lia].
  match goal with
  | |- context [if ?c then _ else _] => destruct c
  end; simpl; reflexivity.
Qed.

Lemma binary_round_sign (sx : bool) (m : positive) (e : Z) :
  has_sign sx (binary_round PyFloat.prec PyFloat.emax sx m e).
Proof.
  unfold binary_round.
  destruct (shl_align m e
              (fexp PyFloat.prec PyFloat.emax (Z.pos (digits2_pos m) + e)))
    as [mz ez].
  apply binary_round_aux_sign. lia.
Qed.

Lemma round_sign (m e : Z) :
  has_sign (m <? 0)%Z (PyFloat.round m e).
Proof.
  unfold PyFloat.round, binary_normalize.
  destruct m as [| p | p]; [exact I | |]; apply binary_round_sign.
Qed.

Lemma round_nonneg (m e : Z) : (0 <= m)%Z -> nonneg (PyFloat.round m e).
Proof.
  intros H. unfold nonneg.
  replace false with (m <? 0)%Z by (apply Z.ltb_ge; exact H).
  apply round_sign.
Qed.

Lemma has_sign_not_nan (s : bool) (f : float) : has_sign s f -> not_nan f.
Proof. destruct f; simpl; intros H; try reflexivity; contradiction. Qed.

Lemma of_ratio_nonneg (n d : Z) :
  (0 <= n)%Z -> (0 < d)%Z -> nonneg (PyFloat.of_ratio n d).
Proof.
  intros Hn Hd. unfold PyFloat.of_ratio.
  destruct (n =? 0)%Z; [exact I |].
  apply round_nonneg.
  set (sh := Z.max 0 (Z.log2 d - Z.log2 n + 64)).
  assert (Hq : (0 <= n * 2 ^ sh / d)%Z).
  { apply Z.div_pos; [| exact Hd].
    apply Z.mul_nonneg_nonneg; [exact Hn |].
    apply Z.pow_nonneg. lia. }
  destruct (n * 2 ^ sh mod d =? 0)%Z; lia.
Qed.

(** The sum of two floats that are not below zero is not below zero. *)
Lemma add_nonneg (a b : float) :
  nonneg a -> nonneg b -> nonneg (PyFloat.add a b).
Proof.
  unfold nonneg, PyFloat.add, SFadd.
  destruct a as [sa | sa | | sa ma ea]; destruct b as [sb | sb | | sb mb eb];
    simpl; intros Ha Hb; try contradiction; subst; try reflexivity;
    try exact I.
  - destruct sa, sb; exact I.
  - apply round_nonneg. simpl.
    destruct (shl_align ma ea (Z.min ea eb)) as [ma' ea'].
    destruct (shl_align mb eb (Z.min ea eb)) as [mb' eb']. simpl. lia.
Qed.

(** ** [clean_score]: signs, blanks and annotations *)

Lemma digits_value_nonneg (s : list ascii) :
  forall acc, (0 <= acc)%Z -> (0 <= digits_value acc s)%Z.
Proof.
  induction s as [| c s IH]; intros acc H; cbn [digits_value]; [exact H |].
  destruct (is_digit c); apply IH; [| exact H].
  assert (Hd : (0 <= digit_value c)%Z) by (unfold digit_value; lia).
  lia.
Qed.

Lemma float_of_run_nonneg (s : list ascii) (f : float) :
  float_of_run s = Ok f -> nonneg f.
Proof.
  unfold float_of_run.
  destruct ((count_dots s <=? 1)%nat && (1 <=? count_digits s)%nat);
    [| discriminate].
  intros H. inversion H; subst f.
  apply of_ratio_nonneg.
  - apply digits_value_nonneg. lia.
  - apply Z.pow_pos_nonneg; lia.
Qed.

Lemma float_of_int_sign (n : Z) (f : float) :
  float_of_int n = Ok f -> has_sign (n <? 0)%Z f.
Proof.
  intros H. apply float_of_int_ok in H. subst f. apply round_sign.
Qed.

(** What [clean_score] returns for a string is a number that is not
    below zero. *)
Lemma clean_score_string_nonneg (s : string) (f : float) :
  clean_score (JStr s) = Ok f -> nonneg f.
Proof.
  simpl.
  destruct (is_absence_marker (strip (chars s))).
  { intros H. inversion H. exact I. }
  destruct (numeric_match (strip (chars s))) as [| c run].
  { intros H. inversion H. exact I. }
  apply float_of_run_nonneg.
Qed.

(** X1: a score that is not a negative number and not NaN normalizes to
    a number that is not below zero; this covers every string, [None],
    [bool], [list] and [dict]. *)
Theorem clean_score_nonneg (value : json) (f : float) :
  nonneg_score value -> clean_score value = Ok f -> nonneg f.
Proof.
  destruct value as [| b | n | g | s | l | its]; simpl; intros Hv H;
    try (inversion H; subst; exact I).
  - apply float_of_int_sign in H. destruct b; exact H.
  - apply float_of_int_sign in H.
    replace (n <? 0)%Z with false in H by (symmetry; apply Z.ltb_ge; exact Hv).
    exact H.
  - inversion H; subst. exact Hv.
  - apply (clean_score_string_nonneg s). exact H.
Qed.

Lemma clean_score_nonneg_witness :
  nonneg (PyFloat.lit (97 * 2 ^ 46) (-46)).
Proof.
  apply (clean_score_nonneg (JStr "97(Reattempt)")).
  - exact I.
  - vm_compute. reflexivity.
Defined.

(** X2: [clean_score] returns NaN for the float NaN and for no other
    input. *)
Theorem clean_score_nan (value : json) :
  clean_score value = Ok PyFloat.nan <-> value = JFloat PyFloat.nan.
Proof.
  split; [| intros ->; reflexivity].
  destruct value as [| b | n | g | s | l | its]; simpl; intros H;
    try discriminate H.
  - apply float_of_int_sign in H. contradiction.
  - apply float_of_int_sign in H. contradiction.
  - inversion H. reflexivity.
  - apply clean_score_string_nonneg in H. contradiction.
Qed.

Lemma drop_while_all (p : ascii -> bool) (l : list ascii) :
  forallb p l = true -> drop_while p l = [].
Proof.
  induction l as [| c l IH]; simpl; [reflexivity |].
  intros H. apply andb_true_iff in H. destruct H as [Hc Hl].
  rewrite Hc. apply IH. exact Hl.
Qed.

Lemma drop_while_app_stop (p : ascii -> bool) (a b : list ascii) :
  forallb p a = false -> drop_while p (a ++ b) = drop_while p a ++ b.
Proof.
  induction a as [| c a IH]; simpl; [discriminate |].
  destruct (p c); simpl; [exact IH | reflexivity].
Qed.

Lemma forallb_rev (p : ascii -> bool) (l : list ascii) :
  forallb p (rev l) = forallb p l.
Proof.
  induction l as [| c l IH]; simpl; [reflexivity |].
  rewrite forallb_app, IH. simpl. rewrite andb_true_r. apply andb_comm.
Qed.

(** [strip] does not see whitespace around its argument. *)
Lemma strip_blanks (ws1 s ws2 : list ascii) :
  all_space ws1 -> all_space ws2 -> strip (ws1 ++ s ++ ws2) = strip s.
Proof.
  unfold all_space, strip. intros H1 H2.
  rewrite (drop_while_app is_space ws1 _ H1).
  destruct (forallb is_space s) eqn:Hs.
  - rewrite (drop_while_app is_space s _ Hs).
    rewrite (drop_while_all is_space ws2 H2).
    rewrite (drop_while_all is_space s Hs). reflexivity.
  - rewrite (drop_while_app_stop is_space s ws2 Hs).
    rewrite rev_app_distr.
    rewrite drop_while_app by (rewrite forallb_rev; exact H2).
    reflexivity.
Qed.

Lemma chars_text (l : list ascii) : chars (text l) = l.
Proof. apply list_ascii_of_string_of_list_ascii. Qed.

(** X3: whitespace before and after a score string does not change its
    normalization, be it a value or an exception. *)
Theorem clean_score_ignores_blanks (ws1 s ws2 : list ascii) :
  all_space ws1 -> all_space ws2 ->
  clean_score (JStr (text (ws1 ++ s ++ ws2))) = clean_score (JStr (text s)).
Proof.
  intros H1 H2. simpl. rewrite !chars_text.
  rewrite (strip_blanks ws1 s ws2 H1 H2). reflexivity.
Qed.

Lemma clean_score_ignores_blanks_witness :
  clean_score (JStr (text (chars "  " ++ chars "97(Reattempt)" ++ chars " ")))
  = clean_score (JStr (text (chars "97(Reattempt)"))).
Proof.
  apply clean_score_ignores_blanks; reflexivity.
Defined.

Lemma run_char_not_space (c : ascii) :
  is_digit c || is_dot c = true -> is_space c = false.
Proof.
  destruct c as [[] [] [] [] [] [] [] []]; simpl; intros H;
    try discriminate H; reflexivity.
Qed.

Lemma run_char_not_marker (c : ascii) (rest : list ascii) :
  is_digit c || is_dot c = true -> is_absence_marker (c :: rest) = false.
Proof.
  unfold is_absence_marker, absence_markers, text. simpl.
  destruct c as [[] [] [] [] [] [] [] []]; simpl; intros H;
    try discriminate H; reflexivity.
Qed.

Lemma last_default (l : list ascii) (d d' : ascii) :
  l <> [] -> last l d = last l d'.
Proof.
  induction l as [| x l IH]; intros Hne; [contradiction |].
  destruct l as [| y l]; [reflexivity |].
  change (last (y :: l) d = last (y :: l) d'). apply IH. discriminate.
Qed.

Lemma last_app_cons (a : list ascii) (c d : ascii) (t : list ascii) :
  last (a ++ c :: t) d = last (c :: t) c.
Proof.
  induction a as [| x a IH].
  - apply last_default. discriminate.
  - change ((x :: a) ++ c :: t) with (x :: (a ++ c :: t)).
    destruct (a ++ c :: t) as [| y l] eqn:E; [destruct a; discriminate E |].
    exact IH.
Qed.

Lemma drop_while_rev_stop (l : list ascii) (d : ascii) :
  l <> [] -> is_space (last l d) = false ->
  drop_while is_space (rev l) = rev l.
Proof.
  intros Hne Hlast.
  destruct (exists_last Hne) as [l' [c ->]].
  rewrite last_last in Hlast.
  rewrite rev_app_distr. simpl. rewrite Hlast. reflexivity.
Qed.

Lemma numeric_match_run (run t : list ascii) :
  forallb (fun c => is_digit c || is_dot c) run = true ->
  match t with
  | [] => True
  | c :: _ => is_digit c = false /\ is_dot c = false
  end ->
  numeric_match (run ++ t) = run.
Proof.
  unfold numeric_match. intros Hrun Ht.
  induction run as [| c run IH]; simpl.
  - destruct t as [| c t]; [reflexivity |].
    destruct Ht as [Hd Hp]. simpl. rewrite Hd, Hp. reflexivity.
  - simpl in Hrun. apply andb_true_iff in Hrun. destruct Hrun as [Hc Hrun].
    rewrite Hc. f_equal. apply IH. exact Hrun.
Qed.

(** A run followed by an annotation is its own stripped form. *)
Lemma strip_run_annotation (run t : list ascii) :
  numeric_run run -> annotation t -> strip (run ++ t) = run ++ t.
Proof.
  intros [Hne Hrun] Ht. unfold strip.
  destruct run as [| c run]; [contradiction |].
  assert (Hc : is_space c = false).
  { simpl in Hrun. apply andb_true_iff in Hrun. destruct Hrun as [Hc _].
    apply run_char_not_space. exact Hc. }
  change ((c :: run) ++ t) with (c :: (run ++ t)).
  rewrite (drop_while_stop is_space c _ Hc).
  rewrite (drop_while_rev_stop (c :: run ++ t) c); [apply rev_involutive | discriminate |].
  destruct t as [| a t].
  - rewrite app_nil_r.
    destruct (exists_last (l := c :: run)) as [l' [z E]]; [discriminate |].
    rewrite E, last_last.
    apply run_char_not_space.
    rewrite E in Hrun. rewrite forallb_app in Hrun.
    apply andb_true_iff in Hrun. destruct Hrun as [_ Hz].
    simpl in Hz. rewrite andb_true_r in Hz. exact Hz.
  - destruct Ht as [_ [_ Hlast]].
    change (c :: run ++ a :: t) with ((c :: run) ++ a :: t).
    rewrite last_app_cons. exact Hlast.
Qed.

(** X4: a number followed by an annotation normalizes to what [float]
    makes of the number alone: the annotation is not read. *)
Theorem clean_score_ignores_annotation (run t : list ascii) :
  numeric_run run -> annotation t ->
  clean_score (JStr (text (run ++ t))) = float_of_run run.
Proof.
  intros Hrun Ht. simpl. rewrite chars_text.
  rewrite (strip_run_annotation run t Hrun Ht).
  destruct Hrun as [Hne Hrun].
  destruct run as [| c run]; [contradiction |].
  change ((c :: run) ++ t) with (c :: (run ++ t)).
  rewrite run_char_not_marker
    by (simpl in Hrun; apply andb_true_iff in Hrun; destruct Hrun as [Hc _]; exact Hc).
  change (c :: (run ++ t)) with ((c :: run) ++ t).
  rewrite (numeric_match_run (c :: run) t Hrun).
  - reflexivity.
  - destruct t as [| a t]; [exact I |].
    destruct Ht as [Hd [Hp _]]. split; assumption.
Qed.

Lemma clean_score_ignores_annotation_witness :
  clean_score (JStr (text (chars "30.5" ++ chars "(Late)")))
  = float_of_run (chars "30.5").
Proof.
  apply clean_score_ignores_annotation.
  - split; [discriminate | reflexivity].
  - simpl. repeat split.
Defined.

(** ** The scan of braces *)

(** The loop, entered with a positive count: either it breaks at the
    first place where the count is back to zero, or the count stays
    positive to the end of the text. *)
Lemma scan_shape (s : list ascii) :
  forall brace_count i,
    (1 <= brace_count)%Z ->
    match scan brace_count i s with
    | Some end_pos =>
        exists k,
          end_pos = i + S k
          /\ k < List.length s
          /\ nth k s lbrace = rbrace
          /\ (brace_count + depth (firstn (S k) s) = 0)%Z
          /\ forall j, j <= k -> (1 <= brace_count + depth (firstn j s))%Z
    | None =>
        forall j, (1 <= brace_count + depth (firstn j s))%Z
    end.
Proof.
  induction s as [| c s IH]; intros n i Hn.
  - simpl. intros j. destruct j; simpl; lia.
  - assert (Hstep : forall n',
               (1 <= n')%Z ->
               (n' = n + (if Ascii.eqb c lbrace then 1
                          else if Ascii.eqb c rbrace then -1 else 0))%Z ->
               match scan n' (S i) s with
               | Some end_pos =>
                   exists k,
                     end_pos = i + S k
                     /\ k < List.length (c :: s)
                     /\ nth k (c :: s) lbrace = rbrace
                     /\ (n + depth (firstn (S k) (c :: s)) = 0)%Z
                     /\ forall j, j <= k ->
                          (1 <= n + depth (firstn j (c :: s)))%Z
               | None =>
                   forall j, (1 <= n + depth (firstn j (c :: s)))%Z
               end).
    { intros n' Hn' E. specialize (IH n' (S i) Hn').
      destruct (scan n' (S i) s) as [end_pos |].
      - destruct IH as [k [-> [Hk [Hnth [Hzero Hpos]]]]].
        exists (S k). split; [lia |]. split; [simpl; lia |].
        split; [exact Hnth |]. split.
        + cbn [firstn depth]. cbn [firstn depth] in Hzero. lia.
        + intros j Hj. destruct j as [| j]; [simpl; lia |].
          specialize (Hpos j (proj2 (Nat.succ_le_mono j k) Hj)).
          cbn [firstn depth]. lia.
      - intros j. destruct j as [| j]; [simpl; lia |].
        specialize (IH j). cbn [firstn depth]. lia. }
    cbn [scan].
    destruct (Ascii.eqb c lbrace) eqn:Hl.
    + apply Hstep; lia.
    + destruct (Ascii.eqb c rbrace) eqn:Hr.
      * destruct (n - 1 =? 0)%Z eqn:Hz.
        -- apply Z.eqb_eq in Hz. apply Ascii.eqb_eq in Hr. subst c.
           exists 0. split; [lia |]. split; [simpl; lia |].
           split; [reflexivity |]. split.
           ++ cbn [firstn depth]. simpl. lia.
           ++ intros j Hj. replace j with 0 by lia. simpl. lia.
        -- apply Z.eqb_neq in Hz. apply Hstep; lia.
      * apply Hstep; lia.
Qed.

Lemma skipn_exact (pre l : list ascii) :
  skipn (List.length pre) (pre ++ l) = l.
Proof. induction pre as [| c pre IH]; simpl; [reflexivity | exact IH]. Qed.

(** The position [re.search] gives is the position of an opening brace. *)
Lemma search_brace (var_name content : list ascii) (start_pos : nat) :
  plain_name var_name ->
  search var_name 0 content = Some start_pos ->
  exists rest, skipn start_pos content = lbrace :: rest.
Proof.
  intros Hname Hsearch.
  pose proof (search_spec var_name Hname content 0) as H.
  rewrite Hsearch in H. destruct H as [p [b [-> [Hm _]]]]. simpl.
  destruct Hm as [pre [ws1 [ws2 [ws3 [rest [Hs [Hpre [_ [_ [_ [_ Hb]]]]]]]]]]].
  exists rest.
  assert (E : content
              = (pre ++ const ++ ws1 ++ var_name ++ ws2 ++ equals :: ws3)
                  ++ lbrace :: rest).
  { rewrite Hs. repeat rewrite <- app_assoc. simpl.
    repeat rewrite <- app_assoc. reflexivity. }
  assert (Hlen : List.length (pre ++ const ++ ws1 ++ var_name ++ ws2 ++ equals :: ws3)
                 = b).
  { rewrite Hb. list_length. lia. }
  rewrite E, <- Hlen. apply skipn_exact.
Qed.

Lemma last_firstn (s : list ascii) :
  forall k d, k < List.length s -> last (firstn (S k) s) d = nth k s d.
Proof.
  induction s as [| c s IH]; intros k d Hk; [simpl in Hk; lia |].
  destruct k as [| k]; [reflexivity |].
  simpl in Hk.
  destruct s as [| c' s]; [simpl in Hk; lia |].
  change (firstn (S (S k)) (c :: c' :: s)) with (c :: c' :: firstn k s).
  change (last (c :: c' :: firstn k s) d) with (last (firstn (S k) (c' :: s)) d).
  change (nth (S k) (c :: c' :: s) d) with (nth k (c' :: s) d).
  apply IH. lia.
Qed.

(** X5: what the extraction hands to the decoder.  Either the braces
    after the assignment never balance and the decoder gets the empty
    string; or it gets the shortest prefix of the text from the opening
    brace on in which the braces balance, and that prefix starts with an
    opening and ends with a closing brace. *)
Theorem extracted_literal (var_name content : list ascii) (start_pos : nat) :
  plain_name var_name ->
  search var_name 0 content = Some start_pos ->
  let tail := skipn start_pos content in
  (json_str content start_pos = []
   /\ forall j, 1 <= j -> (1 <= depth (firstn j tail))%Z)
  \/ (exists n,
        json_str content start_pos = firstn n tail
        /\ 2 <= n <= List.length tail
        /\ hd rbrace (json_str content start_pos) = lbrace
        /\ last (json_str content start_pos) lbrace = rbrace
        /\ depth (json_str content start_pos) = 0%Z
        /\ forall j, 1 <= j < n -> (1 <= depth (firstn j tail))%Z).
Proof.
  intros Hname Hsearch tail.
  destruct (search_brace var_name content start_pos Hname Hsearch) as [rest Htail].
  fold tail in Htail.
  pose proof (scan_shape rest 1 (S start_pos) (Z.le_refl 1)) as Hshape.
  assert (Hscan : scan 0 start_pos tail = scan 1 (S start_pos) rest).
  { rewrite Htail. reflexivity. }
  unfold json_str, find_end, slice. fold tail. rewrite Hscan.
  destruct (scan 1 (S start_pos) rest) as [end_pos |].
  - right. destruct Hshape as [k [-> [Hk [Hnth [Hzero Hpos]]]]].
    exists (S (S k)).
    replace (S start_pos + S k - start_pos) with (S (S k)) by lia.
    split; [reflexivity |].
    split; [rewrite Htail; simpl; lia |].
    rewrite Htail.
    change (firstn (S (S k)) (lbrace :: rest)) with (lbrace :: firstn (S k) rest).
    split; [reflexivity |]. split; [| split].
    + rewrite <- Hnth. apply (last_firstn (lbrace :: rest) (S k) lbrace).
      simpl. lia.
    + cbn [depth]. rewrite Ascii.eqb_refl. lia.
    + intros j [Hj1 Hj2]. destruct j as [| j]; [lia |].
      change (firstn (S j) (lbrace :: rest)) with (lbrace :: firstn j rest).
      cbn [depth]. rewrite Ascii.eqb_refl.
      apply Hpos. lia.
  - left. rewrite Nat.sub_diag. split; [reflexivity |].
    intros j Hj. destruct j as [| j]; [lia |].
    rewrite Htail.
    change (firstn (S j) (lbrace :: rest)) with (lbrace :: firstn j rest).
    cbn [depth]. rewrite Ascii.eqb_refl.
    apply Hshape.
Qed.

Lemma extracted_literal_witness :
  let tail := skipn 20 sample_document in
  (json_str sample_document 20 = []
   /\ forall j, 1 <= j -> (1 <= depth (firstn j tail))%Z)
  \/ (exists n,
        json_str sample_document 20 = firstn n tail
        /\ 2 <= n <= List.length tail
        /\ hd rbrace (json_str sample_document 20) = lbrace
        /\ last (json_str sample_document 20) lbrace = rbrace
        /\ depth (json_str sample_document 20) = 0%Z
        /\ forall j, 1 <= j < n -> (1 <= depth (firstn j tail))%Z).
Proof.
  apply (extracted_literal (chars "studentCore") sample_document 20).
  - reflexivity.
  - vm_compute. reflexivity.
Defined.

Lemma scan_map (f : ascii -> ascii) (s : list ascii) :
  keeps_braces f ->
  forall brace_count i, scan brace_count i (map f s) = scan brace_count i s.
Proof.
  intros Hf. induction s as [| c s IH]; intros n i; [reflexivity |].
  cbn [map scan]. destruct (Hf c) as [Hl Hr]. rewrite Hl, Hr.
  rewrite !IH. reflexivity.
Qed.

(** X6: the scan looks at braces and at nothing else.  Replacing
    characters other than braces by characters other than braces, quotes
    among them, moves neither end of the substring: a brace inside a JSON
    string counts like any other. *)
Theorem json_str_sees_only_braces (f : ascii -> ascii) (content : list ascii)
    (start_pos : nat) :
  keeps_braces f ->
  json_str (map f content) start_pos = map f (json_str content start_pos).
Proof.
  intros Hf. unfold json_str, find_end, slice.
  rewrite skipn_map, (scan_map f _ Hf).
  destruct (scan 0 start_pos (skipn start_pos content)) as [end_pos |];
    rewrite firstn_map; reflexivity.
Qed.

Lemma unquote_keeps_braces : keeps_braces unquote.
Proof.
  intros c. destruct c as [[] [] [] [] [] [] [] []]; split; reflexivity.
Defined.

Lemma json_str_sees_only_braces_witness :
  json_str (map unquote brace_in_string) 10
  = map unquote (json_str brace_in_string 10).
Proof.
  apply json_str_sees_only_braces. exact unquote_keeps_braces.
Defined.

(** The closing brace inside the string ends the substring: the decoder
    gets the text up to it, with the string left open. *)
Lemma brace_in_string_cut :
  search (chars "a") 0 brace_in_string = Some 10
  /\ text (json_str brace_in_string 10)
     = ("{" ++ quoted "k" ++ ":" ++ String (ascii_of_nat 34) "}")%string.
Proof. split; vm_compute; reflexivity. Qed.

(** ** The records of the output *)

(** Everything a built record holds, read back from the two mappings. *)
Lemma build_record_scores (manual_overall : json) (roll_no : string)
    (core_data : json) (r : record) :
  build_record manual_overall roll_no core_data = Ok r ->
  exists scores fields overall_fields v1 v2 v3,
    manual_overall = JDict scores
    /\ core_data = JDict fields
    /\ JDict overall_fields
       = match lookup roll_no scores with Some o => o | None => JDict [] end
    /\ v1 = match lookup "OverallPseudocode" overall_fields with
            | Some v => v | None => JInt 0 end
    /\ v2 = match lookup "OverallCoding" overall_fields with
            | Some v => v | None => JInt 0 end
    /\ v3 = match lookup "OverallDaily" overall_fields with
            | Some v => v | None => JInt 0 end
    /\ clean_score v1 = Ok (OverallPseudocode r)
    /\ clean_score v2 = Ok (OverallCoding r)
    /\ clean_score v3 = Ok (OverallDailyTest r)
    /\ r = {| Name := name_of fields;
              RollNo := roll_no_of roll_no fields;
              OverallPseudocode := OverallPseudocode r;
              OverallCoding := OverallCoding r;
              OverallDailyTest := OverallDailyTest r;
              Total := PyFloat.add
                         (PyFloat.add (OverallPseudocode r) (OverallCoding r))
                         (OverallDailyTest r);
              Rank := None |}.
Proof.
  unfold build_record. intros H.
  bind_inv H. rename a into overall_data, Ha into Hoverall.
  bind_inv H. rename a into name, Ha into Hname.
  bind_inv H. rename a into regd, Ha into Hregd.
  bind_inv H. rename a into v1, Ha into Hv1.
  bind_inv H. rename a into p, Ha into Hp.
  bind_inv H. rename a into v2, Ha into Hv2.
  bind_inv H. rename a into c, Ha into Hc.
  bind_inv H. rename a into v3, Ha into Hv3.
  bind_inv H. rename a into d, Ha into Hd.
  inversion H; subst r; clear H. simpl.
  apply get_ok in Hoverall. destruct Hoverall as [scores [-> Hov]].
  apply get_ok in Hname. destruct Hname as [fields [-> Hname]].
  apply get_ok in Hregd. destruct Hregd as [fields' [E Hregd]].
  inversion E; subst fields'; clear E.
  apply get_ok in Hv1. destruct Hv1 as [overall_fields [E1 Hv1]].
  apply get_ok in Hv2. destruct Hv2 as [f2 [E2 Hv2]].
  apply get_ok in Hv3. destruct Hv3 as [f3 [E3 Hv3]].
  rewrite E1 in E2, E3. inversion E2; subst f2. inversion E3; subst f3.
  exists scores, fields, overall_fields, v1, v2, v3.
  split; [reflexivity |]. split; [reflexivity |].
  split; [rewrite <- E1; exact Hov |].
  split; [exact Hv1 |]. split; [exact Hv2 |]. split; [exact Hv3 |].
  split; [exact Hp |]. split; [exact Hc |]. split; [exact Hd |].
  unfold name_of, roll_no_of. rewrite <- Hname, <- Hregd. reflexivity.
Qed.

(** X7: the output holds the records the loop built, each exactly once
    and with nothing but the rank added: none is dropped, doubled or
    altered by the sort and the ranking. *)
Theorem output_is_permutation (ids : list (string * json)) (manual_overall : json)
    (built recs : list record) :
  build_records manual_overall ids = Ok built ->
  merge (JDict ids) manual_overall = Ok recs ->
  Permutation (map clear_rank recs) built
  /\ forall r, In r recs -> exists k, Rank r = Some k.
Proof.
  intros Hbuilt Hmerge.
  unfold merge in Hmerge. simpl in Hmerge. rewrite Hbuilt in Hmerge.
  simpl in Hmerge. inversion Hmerge; subst recs; clear Hmerge. split.
  - rewrite assign_ranks_clear.
    rewrite <- (map_clear_rank_none built (built_without_rank _ _ _ Hbuilt)) at 2.
    apply Permutation_map. apply sort_desc_perm.
  - intros r Hr. unfold assign_ranks in Hr.
    revert Hr. generalize 0, 1, (sort_desc built) at 1.
    induction (sort_desc built) as [| x l IH]; intros i k records Hr;
      [destruct Hr |].
    simpl in Hr. destruct Hr as [<- | Hr].
    + eexists. reflexivity.
    + exact (IH _ _ _ Hr).
Qed.

Lemma output_is_permutation_witness :
  Permutation (map clear_rank [sample_record; absent_record])
    (map clear_rank [sample_record; absent_record])
  /\ forall r, In r [sample_record; absent_record] -> exists k, Rank r = Some k.
Proof.
  apply (output_is_permutation two_students overall_value).
  - vm_compute. reflexivity.
  - vm_compute. reflexivity.
Defined.

(** ** More on ranks *)

Lemma adjacent_ranked (recs : list record) :
  adjacent_ranks recs ->
  forall i r,
    nth_error recs i = Some r ->
    exists k, Rank r = Some k /\ 1 <= k <= i + 1.
Proof.
  intros [Hfirst Hnext].
  induction i as [| i IH]; intros r Hr.
  - exists 1. rewrite (Hfirst r Hr). split; [reflexivity | lia].
  - destruct (nth_error_before recs i r Hr) as [rp Hrp].
    destruct (IH rp Hrp) as [k [Hk Hbound]].
    rewrite (Hnext i rp r Hrp Hr).
    destruct (PyFloat.ltb (Total r) (Total rp)).
    + exists (i + 2). split; [reflexivity | lia].
    + exists k. split; [exact Hk | lia].
Qed.

Lemma adjacent_bounds (recs : list record) :
  adjacent_ranks recs ->
  forall i r,
    nth_error recs i = Some r ->
    Rank r = Some (rank_of r) /\ 1 <= rank_of r <= i + 1.
Proof.
  intros Hadj i r Hr.
  destruct (adjacent_ranked recs Hadj i r Hr) as [k [Hk Hbound]].
  unfold rank_of. rewrite Hk. split; [reflexivity | exact Hbound].
Qed.

Lemma adjacent_monotone (recs : list record) :
  adjacent_ranks recs ->
  forall d i r r',
    nth_error recs i = Some r ->
    nth_error recs (i + d) = Some r' ->
    rank_of r <= rank_of r'.
Proof.
  intros Hadj. pose proof Hadj as [_ Hnext].
  induction d as [| d IH]; intros i r r' Hr Hr'.
  - rewrite Nat.add_0_r, Hr in Hr'. inversion Hr'. lia.
  - rewrite Nat.add_succ_r in Hr'.
    destruct (nth_error_before recs (i + d) r' Hr') as [rp Hrp].
    specialize (IH i r rp Hr Hrp).
    destruct (adjacent_ranked recs Hadj (i + d) rp Hrp) as [k [Hk Hbound]].
    pose proof (Hnext (i + d) rp r' Hrp Hr') as Hstep.
    assert (Hrp' : rank_of rp = k) by (unfold rank_of; rewrite Hk; reflexivity).
    assert (Hr'' : rank_of r'
                   = if PyFloat.ltb (Total r') (Total rp) then i + d + 2 else k).
    { unfold rank_of. rewrite Hstep.
      destruct (PyFloat.ltb (Total r') (Total rp)); [reflexivity |].
      rewrite Hk. reflexivity. }
    rewrite Hr''. destruct (PyFloat.ltb (Total r') (Total rp)); lia.
Qed.

(** X8: every record of the output has a rank, between 1 and its 1-based
    position; and the ranks never decrease along the output.  This holds
    for every output, whatever the totals. *)
Theorem ranks_bounded_monotone (student_core manual_overall : json)
    (recs : list record) :
  merge student_core manual_overall = Ok recs ->
  (forall i r,
     nth_error recs i = Some r ->
     Rank r = Some (rank_of r) /\ 1 <= rank_of r <= i + 1)
  /\ (forall i j r r',
        i <= j ->
        nth_error recs i = Some r -> nth_error recs j = Some r' ->
        rank_of r <= rank_of r').
Proof.
  intros Hmerge.
  apply merge_ok in Hmerge. destruct Hmerge as [its [built [_ [_ ->]]]].
  pose proof (assign_ranks_adjacent (sort_desc built)) as Hadj.
  split.
  - apply adjacent_bounds. exact Hadj.
  - intros i j r r' Hij Hr Hr'.
    apply (adjacent_monotone _ Hadj (j - i) i r r' Hr).
    replace (i + (j - i)) with j by lia. exact Hr'.
Qed.

Lemma ranks_bounded_monotone_witness :
  (forall i r,
     nth_error nan_between_output i = Some r ->
     Rank r = Some (rank_of r) /\ 1 <= rank_of r <= i + 1)
  /\ (forall i j r r',
        i <= j ->
        nth_error nan_between_output i = Some r ->
        nth_error nan_between_output j = Some r' ->
        rank_of r <= rank_of r').
Proof.
  apply (ranks_bounded_monotone (JDict nan_between_students) nan_between_scores).
  vm_compute. reflexivity.
Defined.

Lemma filter_length_le (p q : float -> bool) (ts : list float) :
  (forall u, In u ts -> p u = true -> q u = true) ->
  List.length (filter p ts) <= List.length (filter q ts).
Proof.
  induction ts as [| u ts IH]; simpl; intros H; [lia |].
  assert (IH' : List.length (filter p ts) <= List.length (filter q ts)).
  { apply IH. intros v Hv. apply H. right. exact Hv. }
  destruct (p u) eqn:Hp.
  - rewrite (H u (or_introl eq_refl) Hp). simpl. lia.
  - destruct (q u); simpl; lia.
Qed.

Lemma filter_length_lt (p q : float -> bool) (ts : list float) (x : float) :
  (forall u, In u ts -> p u = true -> q u = true) ->
  In x ts -> p x = false -> q x = true ->
  List.length (filter p ts) < List.length (filter q ts).
Proof.
  induction ts as [| u ts IH]; simpl; intros H Hin Hp Hq; [contradiction |].
  assert (Hle : List.length (filter p ts) <= List.length (filter q ts)).
  { apply filter_length_le. intros v Hv. apply H. right. exact Hv. }
  destruct Hin as [-> | Hin].
  - rewrite Hp, Hq. simpl. lia.
  - assert (IH' : List.length (filter p ts) < List.length (filter q ts)).
    { apply IH; try assumption. intros v Hv. apply H. right. exact Hv. }
    destruct (p u) eqn:Hpu.
    + rewrite (H u (or_introl eq_refl) Hpu). simpl. lia.
    + destruct (q u); simpl; lia.
Qed.

Lemma ltb_trans (a b c : float) :
  not_nan a -> not_nan b -> not_nan c ->
  PyFloat.ltb a b = true -> PyFloat.ltb b c = true -> PyFloat.ltb a c = true.
Proof. intros Ha Hb Hc H1 H2. float_order. Qed.

Lemma ltb_irrefl (a : float) : not_nan a -> PyFloat.ltb a a = false.
Proof. intros Ha. apply geb_ltb_false; try assumption. apply geb_refl. exact Ha. Qed.

(** The ranks of an output of numbers, by the count of greater totals. *)
Lemma output_counted (built : list record) (r : record) :
  numbers built ->
  In r (assign_ranks (sort_desc built)) ->
  Rank r
  = Some (1 + count_greater (Total r) (totals (assign_ranks (sort_desc built)))).
Proof.
  intros Hnum Hr.
  apply In_nth_error in Hr. destruct Hr as [j Hj].
  apply (adjacent_ranks_counted _ (assign_ranks_adjacent _)) with j;
    [apply sorted_output; exact Hnum | | exact Hj].
  intros r' Hr'.
  destruct (output_from_built built r' Hr') as [r0 [Hr0 Hclear]].
  apply clear_rank_fields in Hclear.
  destruct Hclear as [_ [_ [_ [_ [_ Et]]]]].
  rewrite Et. apply Hnum. exact Hr0.
Qed.

(** X9: in an output whose totals are numbers the ranks follow the
    totals: records of equal total share their rank, and a record of
    smaller total has a greater rank. *)
Theorem ranks_follow_totals (student_core manual_overall : json)
    (recs : list record) (r r' : record) :
  merge student_core manual_overall = Ok recs ->
  numbers recs ->
  In r recs -> In r' recs ->
  (PyFloat.eqb (Total r) (Total r') = true -> Rank r = Rank r')
  /\ (PyFloat.ltb (Total r') (Total r) = true -> rank_of r < rank_of r').
Proof.
  intros Hmerge Hnum Hr Hr'.
  apply merge_ok in Hmerge. destruct Hmerge as [its [built [_ [_ ->]]]].
  pose proof (numbers_output built Hnum) as Hbuilt.
  pose proof (numbers_totals _ Hnum) as Hnums.
  rewrite Forall_forall in Hnums.
  pose proof (output_counted built r Hbuilt Hr) as Hk.
  pose proof (output_counted built r' Hbuilt Hr') as Hk'.
  split.
  - intros Heq. rewrite Hk, Hk'. f_equal. f_equal.
    unfold count_greater. f_equal. apply filter_ext_in.
    intros u Hu. apply eqb_ltb_compat; [apply Hnums; exact Hu | exact Heq].
  - intros Hlt. unfold rank_of. rewrite Hk, Hk'.
    apply -> Nat.succ_lt_mono. unfold count_greater.
    apply (filter_length_lt _ _ _ (Total r)).
    + intros u Hu Hru.
      apply (ltb_trans (Total r') (Total r) u); try assumption.
      * apply Hnum. exact Hr'.
      * apply Hnum. exact Hr.
      * apply Hnums. exact Hu.
    + unfold totals. apply in_map. exact Hr.
    + apply ltb_irrefl. apply Hnum. exact Hr.
    + exact Hlt.
Qed.

Lemma ranks_follow_totals_witness :
  (PyFloat.eqb (Total sample_record) (Total absent_record) = true ->
   Rank sample_record = Rank absent_record)
  /\ (PyFloat.ltb (Total absent_record) (Total sample_record) = true ->
      rank_of sample_record < rank_of absent_record).
Proof.
  apply (ranks_follow_totals (JDict two_students) overall_value
           [sample_record; absent_record]).
  - vm_compute. reflexivity.
  - exact sample_numbers.
  - left. reflexivity.
  - right. left. reflexivity.
Defined.

(** ** When the merge returns, and on what it depends *)

Lemma build_record_well_formed (manual_overall : json) (roll_no : string)
    (core_data : json) (r : record) :
  build_record manual_overall roll_no core_data = Ok r ->
  exists scores,
    manual_overall = JDict scores
    /\ (exists fields, core_data = JDict fields)
    /\ forall overall_data,
         lookup roll_no scores = Some overall_data -> score_set_ok overall_data.
Proof.
  intros H. apply build_record_scores in H.
  destruct H as [scores [fields [overall_fields [v1 [v2 [v3
    [-> [-> [Hov [E1 [E2 [E3 [S1 [S2 [S3 _]]]]]]]]]]]]]]].
  exists scores. split; [reflexivity |]. split; [exists fields; reflexivity |].
  intros overall_data Hlookup. rewrite Hlookup in Hov. subst overall_data.
  exists overall_fields. split; [reflexivity |].
  intros key v Hkey Hv.
  destruct Hkey as [<- | [<- | [<- | []]]]; rewrite Hv in *; subst;
    eexists; eassumption.
Qed.

(** X10: the merge returns exactly on the inputs on which its loop meets
    no exception: no identity at all, or a score mapping that is an
    object, identities that are objects, and score sets that are objects
    whose three score fields normalize.  On every other input it raises
    and returns no record. *)
Theorem merge_returns_iff (ids : list (string * json)) (manual_overall : json) :
  returns (merge (JDict ids) manual_overall)
  <-> ids = [] \/ well_formed ids manual_overall.
Proof.
  split.
  - intros [recs Hmerge].
    apply merge_ok in Hmerge. destruct Hmerge as [its [built [E [Hbuilt _]]]].
    inversion E; subst its; clear E.
    destruct ids as [| [k0 core0] ids']; [left; reflexivity | right].
    pose proof (build_records_ok _ _ _ Hbuilt) as Hall.
    destruct (Forall2_in_left _ _ _ _ Hall (or_introl eq_refl)) as [r0 [_ Hr0]].
    simpl in Hr0. apply build_record_well_formed in Hr0.
    destruct Hr0 as [scores [-> _]].
    exists scores. split; [reflexivity |].
    intros k core_data Hin.
    destruct (Forall2_in_left _ _ _ _ Hall Hin) as [r [_ Hr]].
    simpl in Hr. apply build_record_well_formed in Hr.
    destruct Hr as [scores' [E [Hfields Hsets]]].
    inversion E; subst scores'. split; assumption.
  - intros [-> | Hwf].
    + exists []. reflexivity.
    + apply merge_returns. exact Hwf.
Qed.

Lemma build_records_agree (ids : list (string * json))
    (scores scores' : list (string * json)) :
  agree_on ids scores scores' ->
  build_records (JDict scores) ids = build_records (JDict scores') ids.
Proof.
  induction ids as [| [k core] ids IH]; intros H; [reflexivity |].
  cbn [build_records].
  assert (E : build_record (JDict scores) k core
              = build_record (JDict scores') k core).
  { unfold build_record. simpl (get (JDict _) k _).
    rewrite (H k core (or_introl eq_refl)). reflexivity. }
  rewrite E, IH; [reflexivity |].
  intros k' core' Hin. apply (H k' core'). right. exact Hin.
Qed.

(** The merge reads the score mapping at the identity keys only. *)
Lemma merge_agree (ids : list (string * json))
    (scores scores' : list (string * json)) :
  agree_on ids scores scores' ->
  merge (JDict ids) (JDict scores) = merge (JDict ids) (JDict scores').
Proof.
  intros H. unfold merge. simpl.
  rewrite (build_records_agree ids scores scores' H). reflexivity.
Qed.

(** X11: a score set whose key is no identity key is never read: with or
    without it the merge gives the same result, so a student known to
    the score mapping alone gets no record. *)
Theorem unlisted_scores_ignored (ids : list (string * json))
    (scores : list (string * json)) (roll_no : string) (overall_data : json) :
  (forall core_data, ~ In (roll_no, core_data) ids) ->
  merge (JDict ids) (JDict ((roll_no, overall_data) :: scores))
  = merge (JDict ids) (JDict scores)
  /\ merge (JDict ids) (JDict (scores ++ [(roll_no, overall_data)]))
     = merge (JDict ids) (JDict scores).
Proof.
  intros Hnot. split; apply merge_agree; intros k core Hin.
  - simpl. destruct (String.eqb k roll_no) eqn:E; [| reflexivity].
    apply String.eqb_eq in E. subst k. destruct (Hnot core Hin).
  - induction scores as [| [k' v'] scores IH]; simpl.
    + destruct (String.eqb k roll_no) eqn:E; [| reflexivity].
      apply String.eqb_eq in E. subst k. destruct (Hnot core Hin).
    + destruct (String.eqb k k'); [reflexivity | exact IH].
Qed.

Lemma unlisted_scores_ignored_witness :
  merge (JDict two_students)
    (JDict [("R9", JDict [("OverallCoding", JStr "1.2.3")]);
            ("R1", JDict [("OverallPseudocode", JInt 50);
                          ("OverallCoding", JStr "-");
                          ("OverallDaily", JStr "30(Late)")])])
  = merge (JDict two_students) overall_value
  /\ merge (JDict two_students)
       (JDict ([("R1", JDict [("OverallPseudocode", JInt 50);
                              ("OverallCoding", JStr "-");
                              ("OverallDaily", JStr "30(Late)")])]
               ++ [("R9", JDict [("OverallCoding", JStr "1.2.3")])]))
     = merge (JDict two_students) overall_value.
Proof.
  apply (unlisted_scores_ignored two_students).
  intros core_data [H | [H | []]]; discriminate H.
Defined.

(** ** Scores that are not below zero *)

(** The sign of a normalized score, by the kind of the raw score. *)
Lemma clean_score_sign (value : json) (f : float) :
  clean_score value = Ok f ->
  match value with
  | JInt n => has_sign (n <? 0)%Z f
  | JFloat g => f = g
  | _ => nonneg f
  end.
Proof.
  destruct value as [| b | n | g | s | l | its]; simpl; intros H;
    try (inversion H; subst; exact I).
  - apply float_of_int_sign in H. destruct b; exact H.
  - apply float_of_int_sign. exact H.
  - inversion H. reflexivity.
  - apply (clean_score_string_nonneg s). exact H.
Qed.

Lemma score_field_nonneg (fields : list (string * json)) (key : string)
    (v : json) (f : float) :
  (forall w, lookup key fields = Some w -> nonneg_score w) ->
  v = match lookup key fields with Some w => w | None => JInt 0 end ->
  clean_score v = Ok f ->
  nonneg f.
Proof.
  intros Hfield -> Hclean.
  assert (Hv : nonneg_score
                 match lookup key fields with Some w => w | None => JInt 0 end).
  { destruct (lookup key fields) as [w |]; [apply Hfield; reflexivity | simpl; lia]. }
  apply clean_score_sign in Hclean.
  destruct (match lookup key fields with Some w => w | None => JInt 0 end)
    as [| b | n | g | s | l | its]; simpl in Hv; try exact Hclean.
  - replace (n <? 0)%Z with false in Hclean
      by (symmetry; apply Z.ltb_ge; exact Hv).
    exact Hclean.
  - subst f. exact Hv.
Qed.

Lemma built_nonneg (ids : list (string * json)) (manual_overall : json)
    (built : list record) :
  build_records manual_overall ids = Ok built ->
  scores_nonneg ids manual_overall ->
  forall r, In r built ->
    nonneg (OverallPseudocode r) /\ nonneg (OverallCoding r)
    /\ nonneg (OverallDailyTest r) /\ nonneg (Total r).
Proof.
  intros Hbuilt Hscores r Hr.
  destruct (Forall2_in_right _ _ _ _ (build_records_ok _ _ _ Hbuilt) Hr)
    as [[k core] [Hin Hr0]].
  simpl in Hr0. apply build_record_scores in Hr0.
  destruct Hr0 as [scores [fields [overall_fields [v1 [v2 [v3
    [Hmo [_ [Hov [E1 [E2 [E3 [S1 [S2 [S3 Hr0]]]]]]]]]]]]]]].
  assert (Hfield : forall key w,
             In key score_keys -> lookup key overall_fields = Some w ->
             nonneg_score w).
  { intros key w Hkey Hw.
    destruct (lookup k scores) as [o |] eqn:Ho.
    - subst o. apply (Hscores k core scores overall_fields key w); assumption.
    - inversion Hov; subst overall_fields. discriminate Hw. }
  assert (Hp : nonneg (OverallPseudocode r)).
  { apply (score_field_nonneg overall_fields "OverallPseudocode" v1);
      [intros w; apply Hfield; simpl; auto | exact E1 | exact S1]. }
  assert (Hc : nonneg (OverallCoding r)).
  { apply (score_field_nonneg overall_fields "OverallCoding" v2);
      [intros w; apply Hfield; simpl; auto | exact E2 | exact S2]. }
  assert (Hd : nonneg (OverallDailyTest r)).
  { apply (score_field_nonneg overall_fields "OverallDaily" v3);
      [intros w; apply Hfield; simpl; auto | exact E3 | exact S3]. }
  split; [exact Hp |]. split; [exact Hc |]. split; [exact Hd |].
  rewrite Hr0. simpl. apply add_nonneg; [apply add_nonneg |]; assumption.
Qed.

(** X12: when no score field read by the merge is a negative number or a
    NaN, every score and every total of the output is a number that is
    not below zero, the output is in descending order of total, and each
    rank is 1 plus the number of records with a strictly greater
    total. *)
Theorem nonneg_scores_ranked (ids : list (string * json)) (manual_overall : json)
    (recs : list record) :
  merge (JDict ids) manual_overall = Ok recs ->
  scores_nonneg ids manual_overall ->
  (forall r, In r recs ->
     nonneg (OverallPseudocode r) /\ nonneg (OverallCoding r)
     /\ nonneg (OverallDailyTest r) /\ nonneg (Total r))
  /\ descending (totals recs)
  /\ counted_ranks recs.
Proof.
  intros Hmerge Hscores.
  apply merge_ok in Hmerge. destruct Hmerge as [its [built [E [Hbuilt ->]]]].
  inversion E; subst its; clear E.
  pose proof (built_nonneg ids manual_overall built Hbuilt Hscores) as Hnonneg.
  assert (Hnum : numbers built).
  { intros r Hr. apply (has_sign_not_nan false). apply (Hnonneg r Hr). }
  split; [| split].
  - intros r Hr.
    destruct (output_from_built built r Hr) as [r0 [Hr0 Hclear]].
    apply clear_rank_fields in Hclear.
    destruct Hclear as [_ [_ [Ep [Ec [Ed Et]]]]].
    rewrite Ep, Ec, Ed, Et. apply Hnonneg. exact Hr0.
  - rewrite totals_assign_ranks. apply sorted_descending.
    apply sort_desc_sorted. exact Hnum.
  - intros r Hr. apply output_counted; assumption.
Qed.

Lemma nonneg_scores_ranked_witness :
  (forall r, In r [sample_record; absent_record] ->
     nonneg (OverallPseudocode r) /\ nonneg (OverallCoding r)
     /\ nonneg (OverallDailyTest r) /\ nonneg (Total r))
  /\ descending (totals [sample_record; absent_record])
  /\ counted_ranks [sample_record; absent_record].
Proof.
  apply (nonneg_scores_ranked two_students overall_value).
  - vm_compute. reflexivity.
  - intros roll_no core_data scores fields key v Hin Hmo Hset Hkey Hv.
    inversion Hmo; subst scores; clear Hmo.
    simpl in Hset. destruct (String.eqb roll_no "R1"); [| discriminate Hset].
    inversion Hset; subst fields; clear Hset.
    destruct Hkey as [<- | [<- | [<- | []]]]; inversion Hv; subst v;
      simpl; try exact I; lia.
Defined.

(** ** The head of the output, and the first failure *)

(** X13: in an output whose totals are numbers the first record has
    rank 1 and no record has a greater total. *)
Theorem leader_has_top_total (student_core manual_overall : json)
    (top : record) (others : list record) :
  merge student_core manual_overall = Ok (top :: others) ->
  numbers (top :: others) ->
  Rank top = Some 1
  /\ forall r, In r (top :: others) -> geb (Total top) (Total r) = true.
Proof.
  intros Hmerge Hnum.
  apply merge_ok in Hmerge. destruct Hmerge as [its [built [_ [_ E]]]].
  pose proof (assign_ranks_adjacent (sort_desc built)) as [Hfirst _].
  pose proof (sorted_output built) as Hsorted.
  rewrite <- E in Hfirst, Hsorted.
  split; [apply Hfirst; reflexivity |].
  assert (Hs : StronglySorted ge_float (totals (top :: others))).
  { apply Hsorted. apply numbers_output. rewrite <- E. exact Hnum. }
  intros r [<- | Hr].
  - apply geb_refl. apply Hnum. left. reflexivity.
  - unfold totals in Hs. simpl in Hs.
    inversion Hs as [| t ts _ Hall]; subst.
    rewrite Forall_forall in Hall. apply Hall. apply in_map. exact Hr.
Qed.

Lemma leader_has_top_total_witness :
  Rank sample_record = Some 1
  /\ forall r, In r [sample_record; absent_record] ->
       geb (Total sample_record) (Total r) = true.
Proof.
  apply (leader_has_top_total (JDict two_students) overall_value).
  - vm_compute. reflexivity.
  - exact sample_numbers.
Defined.

Lemma build_records_first_failure (manual_overall : json)
    (before : list (string * json)) (roll_no : string) (core_data : json)
    (after : list (string * json)) (e : exn) :
  returns (build_records manual_overall before) ->
  build_record manual_overall roll_no core_data = Raise e ->
  build_records manual_overall (before ++ (roll_no, core_data) :: after) = Raise e.
Proof.
  intros Hbefore Hfail.
  induction before as [| [k core] before IH]; simpl.
  - rewrite Hfail. reflexivity.
  - destruct Hbefore as [built Hbuilt]. simpl in Hbuilt.
    bind_inv Hbuilt. rename a into r, Ha into Hr.
    bind_inv Hbuilt. rename a into rs, Ha into Hrs.
    rewrite Hr. cbn [bind]. rewrite IH; [reflexivity |].
    exists rs. exact Hrs.
Qed.

(** X14: the loop over the identities stops at the first identity whose
    record cannot be built: the merge raises that exception, whatever
    the identities after it hold, and returns no record of the
    identities before it. *)
Theorem first_failure_decides (manual_overall : json)
    (before : list (string * json)) (roll_no : string) (core_data : json)
    (after : list (string * json)) (e : exn) :
  returns (build_records manual_overall before) ->
  build_record manual_overall roll_no core_data = Raise e ->
  merge (JDict (before ++ (roll_no, core_data) :: after)) manual_overall = Raise e.
Proof.
  intros Hbefore Hfail. unfold merge. simpl.
  rewrite (build_records_first_failure _ _ _ _ _ _ Hbefore Hfail).
  reflexivity.
Qed.

Lemma first_failure_decides_witness :
  merge (JDict ([("R1", JDict [("Name", JStr "A")])]
                ++ ("R2", JStr "no object") :: [("R3", JNull)]))
    overall_value
  = Raise (AttributeError "'str' object has no attribute 'get'").
Proof.
  apply first_failure_decides.
  - eexists. vm_compute. reflexivity.
  - vm_compute. reflexivity.
Defined.

(** * The decoder and the extraction *)

(** ** Texts without the three literals *)

Lemma free_tail (c : ascii) (s : list ascii) :
  constant_free (c :: s) = true -> constant_free s = true.
Proof.
  intros H. cbn [constant_free] in H.
  destruct (strip_prefix (chars "NaN") (c :: s)); [discriminate H |].
  destruct (strip_prefix (chars "Infinity") (c :: s)); [discriminate H |].
  exact H.
Qed.

Lemma free_suffix (pre s : list ascii) :
  constant_free (pre ++ s) = true -> constant_free s = true.
Proof.
  induction pre as [| c pre IH]; intros H; [exact H |].
  apply IH. exact (free_tail _ _ H).
Qed.

Lemma free_head (s : list ascii) :
  constant_free s = true ->
  strip_prefix (chars "NaN") s = None
  /\ strip_prefix (chars "Infinity") s = None.
Proof.
  destruct s as [| c s]; intros H; [split; reflexivity |].
  cbn [constant_free] in H.
  destruct (strip_prefix (chars "NaN") (c :: s)); [discriminate H |].
  destruct (strip_prefix (chars "Infinity") (c :: s)); [discriminate H |].
  split; reflexivity.
Qed.

Lemma free_skip_ws (s : list ascii) :
  forall idx, constant_free s = true -> constant_free (fst (Json.skip_ws s idx)) = true.
Proof.
  induction s as [| c s IH]; intros idx H; simpl; [exact H |].
  destruct (Json.is_ws c); [apply IH; exact (free_tail _ _ H) | exact H].
Qed.

Lemma free_drop_while (p : ascii -> bool) (s : list ascii) :
  constant_free s = true -> constant_free (drop_while p s) = true.
Proof.
  induction s as [| c s IH]; intros H; simpl; [exact H |].
  destruct (p c); [apply IH; exact (free_tail _ _ H) | exact H].
Qed.

Lemma free_strip_prefix (lit s rest : list ascii) :
  constant_free s = true -> strip_prefix lit s = Some rest -> constant_free rest = true.
Proof.
  intros H E. apply strip_prefix_spec in E. subst s.
  exact (free_suffix _ _ H).
Qed.

Lemma free_literal (word : string) (value : json) (s : list ascii) (idx : nat)
    (v : json) (rest : list ascii) (j : nat) :
  constant_free s = true ->
  Json.literal word value s idx = Some (v, (rest, j)) ->
  constant_free rest = true.
Proof.
  unfold Json.literal. intros H E.
  destruct (strip_prefix (chars word) s) as [r |] eqn:Er; [| discriminate E].
  inversion E; subst. exact (free_strip_prefix _ _ _ H Er).
Qed.

(** None of the three literals stands at the head of such a text. *)
Lemma free_no_constant (value : json) (s : list ascii) (idx : nat) :
  constant_free s = true ->
  Json.literal "NaN" value s idx = None
  /\ Json.literal "Infinity" value s idx = None
  /\ Json.literal "-Infinity" value s idx = None.
Proof.
  intros H. unfold Json.literal.
  destruct (free_head s H) as [HN HI]. rewrite HN, HI.
  split; [reflexivity |]. split; [reflexivity |].
  destruct s as [| c s]; [reflexivity |].
  destruct (free_head s (free_tail _ _ H)) as [_ HI'].
  change (strip_prefix (chars "-Infinity") (c :: s))
    with (if Ascii.eqb "-" c then strip_prefix (chars "Infinity") s else None).
  rewrite HI'. destruct (Ascii.eqb "-" c); reflexivity.
Qed.

Lemma push_done (c : ascii) (o : Json.outcome (string * Json.cursor))
    (str : string) (cur : Json.cursor) :
  Json.push c o = Json.Done (str, cur) ->
  exists str', o = Json.Done (str', cur).
Proof.
  destruct o as [[str' cur'] | | |]; simpl; intros H; try discriminate H.
  inversion H; subst. exists str'. reflexivity.
Qed.

Lemma free_scanstring (begin : nat) (n : nat) :
  forall s idx str rest j,
    List.length s <= n ->
    constant_free s = true ->
    Json.scanstring begin s idx = Json.Done (str, (rest, j)) ->
    constant_free rest = true.
Proof.
  induction n as [| n IH]; intros s idx str rest j Hlen Hs E.
  - destruct s; [discriminate E | simpl in Hlen; lia].
  - destruct s as [| c s1]; [discriminate E |].
    simpl in Hlen. cbn [Json.scanstring] in E.
    pose proof (free_tail _ _ Hs) as Hs1.
    destruct (Ascii.eqb c Json.dquote).
    { inversion E; subst. exact Hs1. }
    destruct (Ascii.eqb c Json.backslash).
    + destruct s1 as [| e s2]; [discriminate E |].
      simpl in Hlen. pose proof (free_tail _ _ Hs1) as Hs2.
      destruct (Ascii.eqb e "u").
      * destruct s2 as [| h1 [| h2 [| h3 [| h4 [| c5 s3]]]]]; try discriminate E.
        destruct (Json.hex4 h1 h2 h3 h4) as [code |]; [| discriminate E].
        destruct (code <? 256)%nat; [| discriminate E].
        apply push_done in E. destruct E as [str' E].
        apply (IH _ _ _ _ _) with (3 := E).
        -- simpl in Hlen |- *. lia.
        -- do 4 apply free_tail in Hs2. exact Hs2.
      * destruct (Json.unescape e) as [ch |]; [| discriminate E].
        apply push_done in E. destruct E as [str' E].
        apply (IH _ _ _ _ _) with (3 := E); [lia | exact Hs2].
    + destruct (code c <=? 31)%nat; [discriminate E |].
      apply push_done in E. destruct E as [str' E].
      apply (IH _ _ _ _ _) with (3 := E); [lia | exact Hs1].
Qed.

Lemma free_integer_part (s whole rest : list ascii) :
  constant_free s = true -> Json.integer_part s = Some (whole, rest) ->
  constant_free rest = true.
Proof.
  intros Hs E. unfold Json.integer_part in E.
  destruct s as [| c b]; [discriminate E |].
  pose proof (free_tail _ _ Hs) as Hb.
  destruct (Json.is_nonzero_digit c).
  - inversion E; subst. apply free_drop_while. exact Hb.
  - destruct (Ascii.eqb c "0"); [| discriminate E].
    inversion E; subst. exact Hb.
Qed.

Lemma free_fraction_part (s : list ascii) :
  constant_free s = true -> constant_free (snd (Json.fraction_part s)) = true.
Proof.
  intros Hs. unfold Json.fraction_part.
  destruct s as [| c [| d t]]; try exact Hs.
  destruct (Ascii.eqb c "." && is_digit d); [| exact Hs].
  cbn [snd]. apply free_drop_while. do 2 apply free_tail in Hs. exact Hs.
Qed.

Lemma free_exponent_part (s : list ascii) :
  constant_free s = true -> constant_free (snd (Json.exponent_part s)) = true.
Proof.
  intros Hs. unfold Json.exponent_part.
  destruct s as [| c t]; [exact Hs |].
  destruct (Ascii.eqb c "e" || Ascii.eqb c "E"); [| exact Hs].
  pose proof (free_tail _ _ Hs) as Ht.
  set (choice := match t with
                 | sg :: t' =>
                     if Ascii.eqb sg "-" then (true, 1, t')
                     else if Ascii.eqb sg "+" then (false, 1, t')
                     else (false, 0, t)
                 | [] => (false, 0, t)
                 end).
  assert (Hc : constant_free (snd choice) = true).
  { subst choice. destruct t as [| sg t']; [exact Ht |].
    destruct (Ascii.eqb sg "-"); [exact (free_tail _ _ Ht) |].
    destruct (Ascii.eqb sg "+"); [exact (free_tail _ _ Ht) | exact Ht]. }
  destruct choice as [[negative signed] body]. cbn [snd] in Hc.
  destruct (take_while is_digit body); [exact Hs |].
  cbn [snd]. apply free_drop_while. exact Hc.
Qed.

Lemma free_match_number (s : list ascii) (idx : nat) (v : json)
    (rest : list ascii) (j : nat) :
  constant_free s = true ->
  Json.match_number s idx = Json.Done (v, (rest, j)) ->
  constant_free rest = true.
Proof.
  intros Hs E. unfold Json.match_number in E.
  set (start := match s with
                | c :: s' => if Ascii.eqb c "-" then (true, s') else (false, s)
                | [] => (false, s)
                end) in E.
  assert (Hbody : constant_free (snd start) = true).
  { subst start. destruct s as [| c s']; [exact Hs |].
    destruct (Ascii.eqb c "-"); [exact (free_tail _ _ Hs) | exact Hs]. }
  destruct start as [negative body]. cbn [snd] in Hbody.
  destruct (Json.integer_part body) as [[whole after_whole] |] eqn:Ewhole;
    [| discriminate E].
  pose proof (free_integer_part _ _ _ Hbody Ewhole) as H1.
  pose proof (free_fraction_part _ H1) as H2.
  destruct (Json.fraction_part after_whole) as [fraction after_fraction].
  cbn [snd] in H2.
  pose proof (free_exponent_part _ H2) as H3.
  destruct (Json.exponent_part after_fraction) as [exponent rest'].
  cbn [snd] in H3.
  destruct fraction; destruct exponent as [[[en ds] len] |];
    try (inversion E; subst; exact H3).
  destruct (List.length whole <=? Json.max_int_digits)%nat;
    [inversion E; subst; exact H3 | discriminate E].
Qed.

Ltac settled :=
  split; [reflexivity | intros ? ? ? Hdone; discriminate Hdone].

Ltac skip_blanks H s i :=
  match goal with
  | |- context [Json.skip_ws ?t ?k] =>
      let H' := fresh H in
      assert (H' : constant_free (fst (Json.skip_ws t k)) = true)
        by (apply free_skip_ws; first [assumption | eapply free_tail; eassumption]);
      destruct (Json.skip_ws t k) as [s i]; cbn [fst] in H'
  end.

(** On a text without the literals the scanner does the same whether it
    accepts them or not, and what it leaves is again without them. *)
Lemma free_scan (fuel : nat) :
  (forall depth s idx,
     constant_free s = true ->
     Json.scan_once true fuel depth s idx = Json.scan_once false fuel depth s idx
     /\ free_result (Json.scan_once false fuel depth s idx))
  /\ (forall depth d s idx,
        constant_free s = true ->
        Json.members true fuel depth d s idx = Json.members false fuel depth d s idx
        /\ free_result (Json.members false fuel depth d s idx))
  /\ (forall depth l s idx,
        constant_free s = true ->
        Json.elements true fuel depth l s idx = Json.elements false fuel depth l s idx
        /\ free_result (Json.elements false fuel depth l s idx)).
Proof.
  unfold free_result.
  induction fuel as [| fuel [IHscan [IHmembers IHelements]]].
  { split; [| split]; intros; settled. }
  split; [| split].
  - intros depth s idx Hs. cbn [Json.scan_once].
    destruct s as [| c s1]; [settled |].
    pose proof (free_tail _ _ Hs) as Hs1.
    destruct (Ascii.eqb c Json.dquote).
    { split; [reflexivity |]. intros value rest j Hdone.
      destruct (Json.scanstring idx s1 (S idx)) as [[str [s2 i2]] | | |] eqn:Estr;
        try discriminate Hdone.
      cbn in Hdone. inversion Hdone; subst.
      exact (free_scanstring idx (List.length s1) s1 (S idx) str rest j
               (le_n _) Hs1 Estr). }
    destruct (Ascii.eqb c lbrace).
    { destruct depth as [| depth]; [settled |].
      skip_blanks H s2 i2.
      destruct s2 as [| c2 s3]; [apply IHmembers; assumption |].
      destruct (Ascii.eqb c2 rbrace); [| apply IHmembers; assumption].
      split; [reflexivity |]. intros value rest j Hdone.
      inversion Hdone; subst. eapply free_tail; eassumption. }
    destruct (Ascii.eqb c "[").
    { destruct depth as [| depth]; [settled |].
      skip_blanks H s2 i2.
      destruct s2 as [| c2 s3]; [apply IHelements; assumption |].
      destruct (Ascii.eqb c2 "]"); [| apply IHelements; assumption].
      split; [reflexivity |]. intros value rest j Hdone.
      inversion Hdone; subst. eapply free_tail; eassumption. }
    destruct (Json.literal "null" JNull (c :: s1) idx) as [[v [r k]] |] eqn:Enull.
    { split; [reflexivity |]. intros value rest j Hdone.
      inversion Hdone; subst. exact (free_literal _ _ _ _ _ _ _ Hs Enull). }
    destruct (Json.literal "true" (JBool true) (c :: s1) idx)
      as [[v [r k]] |] eqn:Etrue.
    { split; [reflexivity |]. intros value rest j Hdone.
      inversion Hdone; subst. exact (free_literal _ _ _ _ _ _ _ Hs Etrue). }
    destruct (Json.literal "false" (JBool false) (c :: s1) idx)
      as [[v [r k]] |] eqn:Efalse.
    { split; [reflexivity |]. intros value rest j Hdone.
      inversion Hdone; subst. exact (free_literal _ _ _ _ _ _ _ Hs Efalse). }
    destruct (free_no_constant (JFloat PyFloat.nan) (c :: s1) idx Hs) as [E1 _].
    destruct (free_no_constant (JFloat PyFloat.inf) (c :: s1) idx Hs) as [_ [E2 _]].
    destruct (free_no_constant (JFloat PyFloat.neg_inf) (c :: s1) idx Hs)
      as [_ [_ E3]].
    rewrite E1, E2, E3.
    split; [reflexivity |]. intros value rest j Hdone.
    exact (free_match_number _ _ _ _ _ Hs Hdone).
  - intros depth d s idx Hs. cbn [Json.members].
    destruct s as [| c s1]; [settled |].
    pose proof (free_tail _ _ Hs) as Hs1.
    destruct (Ascii.eqb c Json.dquote); [| settled].
    destruct (Json.scanstring idx s1 (S idx)) as [[key [s2 i2]] | | |] eqn:Estr;
      cbn [Json.then_]; try settled.
    pose proof (free_scanstring idx (List.length s1) s1 (S idx) key s2 i2
                  (le_n _) Hs1 Estr) as Hs2.
    skip_blanks H s3 i3.
    destruct s3 as [| colon s4]; [settled |].
    destruct (Ascii.eqb colon ":"); [| settled].
    skip_blanks H s5 i5.
    destruct (IHscan depth s5 i5 ltac:(assumption)) as [Esame Hfree].
    rewrite Esame.
    destruct (Json.scan_once false fuel depth s5 i5)
      as [[value [s6 i6]] | | |] eqn:Evalue; cbn [Json.then_]; try settled.
    pose proof (Hfree value s6 i6 eq_refl) as Hs6.
    skip_blanks H s7 i7.
    destruct s7 as [| c7 s8]; [settled |].
    destruct (Ascii.eqb c7 rbrace).
    { split; [reflexivity |]. intros v rest j Hdone.
      inversion Hdone; subst. eapply free_tail; eassumption. }
    destruct (Ascii.eqb c7 ","); [| settled].
    skip_blanks H s9 i9.
    apply IHmembers. assumption.
  - intros depth l s idx Hs. cbn [Json.elements].
    destruct (IHscan depth s idx Hs) as [Esame Hfree].
    rewrite Esame.
    destruct (Json.scan_once false fuel depth s idx)
      as [[value [s2 i2]] | | |] eqn:Evalue; cbn [Json.then_]; try settled.
    pose proof (Hfree value s2 i2 eq_refl) as Hs2.
    skip_blanks H s3 i3.
    destruct s3 as [| c3 s4]; [settled |].
    destruct (Ascii.eqb c3 "]").
    { split; [reflexivity |]. intros v rest j Hdone.
      inversion Hdone; subst. eapply free_tail; eassumption. }
    destruct (Ascii.eqb c3 ","); [| settled].
    skip_blanks H s5 i5.
    apply IHelements. assumption.
Qed.

(** Without the literals in the text, [json.loads] answers as the
    decoder of JSON proper does. *)
Lemma loads_without_constants (doc : list ascii) :
  constant_free doc = true -> Json.loads doc = Json.decode false doc.
Proof.
  intros Hdoc. unfold Json.loads, Json.decode.
  pose proof (free_skip_ws doc 0 Hdoc) as Hs1.
  destruct (Json.skip_ws doc 0) as [s1 i1]. cbn [fst] in Hs1.
  destruct (free_scan (2 * List.length doc + 2)) as [Hscan _].
  destruct (Hscan Json.max_depth s1 i1 Hs1) as [Esame _].
  rewrite Esame. reflexivity.
Qed.

(** [json.loads] on the empty text. *)
Lemma loads_empty : Json.loads [] = Some (inr expecting_value).
Proof. vm_compute. reflexivity. Qed.

(** The decoder of the examples is [json.loads] wherever the model
    decides. *)
Lemma sample_loads_agrees : agrees sample_loads.
Proof.
  intros doc r Hdoc. unfold sample_loads. rewrite Hdoc. reflexivity.
Qed.

(** C4: the merge does not give one record per identity on every pair of
    mappings.  With the identities R1 and R2 and a score mapping that
    holds the score ["1.2.3"] for R1 and nothing for R2, the merge raises
    the [ValueError] of [float("1.2.3")]: no record is returned, and so
    none for R2, whose key the score mapping lacks.  The same holds of
    the parse of a document with these two objects. *)
Theorem malformed_score_aborts_merge :
  lookup "R2" malformed_score_sets = None
  /\ merge (JDict two_students) (JDict malformed_score_sets)
     = Raise (ValueError "could not convert string to float: '1.2.3'")
  /\ extract_json_object sample_loads malformed_document (chars "studentCore")
     = Ok (JDict two_students)
  /\ extract_json_object sample_loads malformed_document (chars "manualOverall")
     = Ok (JDict malformed_score_sets)
  /\ parse_html_file_content sample_loads malformed_document
     = Raise (ValueError "could not convert string to float: '1.2.3'").
Proof. repeat split; vm_compute; reflexivity. Qed.



